(** * User controller of the video-platform backend

    A shallow embedding of [src/controllers/user.controller.js] (the complete
    revision of the controller: the one that exports [refreshAccessToken],
    [changePassword] and [getUserChannelProfile]) and the properties of its
    session/token life cycle, registration and channel-profile query.

    Conventions of the embedding.
    - A JavaScript string is a [string] of code units below 256; [None] of an
      [option string] is JavaScript's [undefined].
    - A MongoDB document is a finite map from field names to values
      ([gmap string Value]); a collection is a list of documents in insertion
      order.
    - A request handler is a computation in a state-and-exception monad over
      the [World] (collections, upload log, clock, promises nobody awaited).
    - What the controller imports but this repository's sources do not
      contain (the Mongoose model, the JWT library, the asset uploader) is
      gathered in the record [Collab]. The general statements hold for each
      value of it; the evaluations at a concrete request use the one of
      [Fixture]. *)

From Stdlib Require Import Ascii String List Bool Arith Lia.
From stdpp Require Import gmap strings list fin_maps.

Import ListNotations.
Local Open Scope string_scope.

(** ** JavaScript strings *)

Module Js.

(** White space of [String.prototype.trim] among the code units below 256:
    TAB, LF, VT, FF, CR, SP and NBSP. *)
Definition isWhiteSpace (c : ascii) : bool :=
  let n := nat_of_ascii c in
  (((9 <=? n) && (n <=? 13)) || (n =? 32) || (n =? 160))%nat.

Fixpoint trimStart (s : string) : string :=
  match s with
  | EmptyString => EmptyString
  | String c s' => if isWhiteSpace c then trimStart s' else s
  end.

Definition trimEnd (s : string) : string :=
  String.rev (trimStart (String.rev s)).

Definition trim (s : string) : string := trimEnd (trimStart s).

(** [String.prototype.toLowerCase] on code units below 256: A-Z and the
    Latin-1 capitals U+00C0..U+00DE other than the multiplication sign. *)
Definition lowerChar (c : ascii) : ascii :=
  let n := nat_of_ascii c in
  if (((65 <=? n) && (n <=? 90))
      || ((192 <=? n) && (n <=? 222) && negb (n =? 215)))%nat
  then ascii_of_nat (n + 32)
  else c.

Fixpoint toLowerCase (s : string) : string :=
  match s with
  | EmptyString => EmptyString
  | String c s' => String (lowerChar c) (toLowerCase s')
  end.

(** Truthiness of a value that is a string or [undefined]. *)
Definition truthy (v : option string) : bool :=
  match v with
  | Some s => negb (String.eqb s "")
  | None => false
  end.

(** [a || b] *)
Definition or (a b : option string) : option string :=
  if truthy a then a else b.

(** [field?.trim() === ""] *)
Definition trimsToEmpty (field : option string) : bool :=
  match field with
  | Some s => String.eqb (trim s) ""
  | None => false
  end.

End Js.

(** ** Documents of the store *)

#[warnings="-register-all"]
Inductive Value : Type :=
| VStr (s : string)
| VOid (n : nat)
| VNum (n : nat)
| VBool (b : bool)
| VNull
| VArr (items : list Value)
| VObj (fields : list (string * Value)).

Abbreviation Doc := (gmap string Value).

(** Equality of stored values, as the store compares them. *)
Fixpoint value_eqb (a b : Value) : bool :=
  match a, b with
  | VStr s, VStr t => String.eqb s t
  | VOid n, VOid m => Nat.eqb n m
  | VNum n, VNum m => Nat.eqb n m
  | VBool x, VBool y => Bool.eqb x y
  | VNull, VNull => true
  | VArr l, VArr r =>
      (fix go (l r : list Value) : bool :=
         match l, r with
         | [], [] => true
         | x :: l', y :: r' => value_eqb x y && go l' r'
         | _, _ => false
         end) l r
  | VObj l, VObj r =>
      (fix go (l r : list (string * Value)) : bool :=
         match l, r with
         | [], [] => true
         | (k, x) :: l', (k', y) :: r' =>
             String.eqb k k' && value_eqb x y && go l' r'
         | _, _ => false
         end) l r
  | _, _ => false
  end.

(** An equality condition [{ key: v }] of a query filter, on a field that
    holds a scalar. *)
Definition fieldIs (key : string) (v : Value) (d : Doc) : bool :=
  match d !! key with
  | Some x => value_eqb x v
  | None => false
  end.

(** [.select("-password -refreshToken")] *)
Definition selectSafe (d : Doc) : Doc :=
  delete "refreshToken" (delete "password" d).

(** A sub-document embedded in an array by [$lookup]. *)
Definition embed (d : Doc) : Value := VObj (map_to_list d).

(** ** Errors, responses *)

Inductive Exn : Type :=
| ApiError (statusCode : nat) (message : string)
| TypeError (message : string)
| OtherError (message : string).

Definition exnMessage (e : Exn) : string :=
  match e with
  | ApiError _ m | TypeError m | OtherError m => m
  end.

Inductive Data : Type :=
| DataDoc (d : Doc)
| DataTokens (accessToken refreshToken : option string)
| DataLogin (user : option Doc) (accessToken refreshToken : option string)
| DataEmpty
| DataNull.

(** [new ApiResponse(statusCode, data, message)] *)
Record ApiResponse : Type := mkApiResponse {
  statusCode : nat;
  data : Data;
  message : string
}.

(** What [res.status(..).cookie(..).clearCookie(..).json(..)] sends. *)
Record Response : Type := mkResponse {
  status : nat;
  cookiesSet : list (string * option string);
  cookiesCleared : list string;
  json : ApiResponse
}.

(** ** The world the handlers run in *)

(** Work started by a handler whose promise nobody awaits: it runs after the
    handler has returned. *)
Inductive Task : Type :=
| TaskIssueTokens (userId : option Value)
| TaskSave (user : Doc) (modifiedPaths : list string).

Record World : Type := mkWorld {
  users : list Doc;
  subscriptions : list Doc;
  uploads : list (option string);
  now : nat;
  pending : list Task
}.

Definition setUsers (us : list Doc) (w : World) : World :=
  mkWorld us (subscriptions w) (uploads w) (now w) (pending w).

Definition logUpload (path : option string) (w : World) : World :=
  mkWorld (users w) (subscriptions w) (uploads w ++ [path]) (now w) (pending w).

Definition enqueue (t : Task) (w : World) : World :=
  mkWorld (users w) (subscriptions w) (uploads w) (now w) (pending w ++ [t]).

Definition clearPending (w : World) : World :=
  mkWorld (users w) (subscriptions w) (uploads w) (now w) [].

(** The clock moves between two requests. *)
Definition atTime (t : nat) (w : World) : World :=
  mkWorld (users w) (subscriptions w) (uploads w) t (pending w).

(** ** The monad of handlers: state and exceptions *)

Definition M (A : Type) : Type := World -> (Exn + A) * World.

Definition ret {A} (a : A) : M A := fun w => (inr a, w).

Definition throw {A} (e : Exn) : M A := fun w => (inl e, w).

Definition bind {A B} (m : M A) (k : A -> M B) : M B :=
  fun w =>
    match m w with
    | (inl e, w') => (inl e, w')
    | (inr a, w') => k a w'
    end.

(** [try { body } catch (error) { handler }] *)
Definition tryCatch {A} (body : M A) (handler : Exn -> M A) : M A :=
  fun w =>
    match body w with
    | (inl e, w') => handler e w'
    | (inr a, w') => (inr a, w')
    end.

Definition get : M World := fun w => (inr w, w).

Definition modify (f : World -> World) : M unit := fun w => (inr tt, f w).

Declare Scope handler_scope.
Delimit Scope handler_scope with handler.

Notation "x <- m ;; k" := (bind m (fun x => k))
  (at level 100, m at next level, right associativity) : handler_scope.
Notation "m ;;; k" := (bind m (fun _ => k))
  (at level 100, right associativity) : handler_scope.

(** [if (cond) throw e] *)
Definition throwIf (cond : bool) (e : Exn) : M unit :=
  if cond then throw e else ret tt.

Definition liftE {A} (r : Exn + A) : M A := fun w => (r, w).

Definition isSome {A} (o : option A) : bool :=
  match o with Some _ => true | None => false end.

(** ** Collaborators the controller imports *)

(** What [uploadAssetsOnCloudinary] resolves to when the upload worked. *)
Record Asset : Type := mkAsset { url : string }.

(** The parts of the program that are outside the controller. Nothing is
    assumed about them.
    - [schemaPath]: the paths the [User] schema declares; Mongoose keeps only
      these when a document is created.
    - [hashPassword]: the schema's pre-save hook on a modified password.
    - [isPasswordCorrect], [generateAccessToken], [generateRefreshToken]: the
      methods of a [User] document (the last two read the clock).
    - [matchesUndefined]: how the store answers an equality condition whose
      value is [undefined].
    - [jwtVerify]: [jwt.verify(token, process.env.REFRESH_TOKEN_SECRET)] at a
      given time: the message of the error it throws, or the decoded payload.
    - [uploadAssetsOnCloudinary]: the asset uploader; [None] is its [null]. *)
Record Collab : Type := mkCollab {
  schemaPath : string -> bool;
  hashPassword : string -> string;
  isPasswordCorrect : Doc -> option string -> bool;
  generateAccessToken : Doc -> nat -> string;
  generateRefreshToken : Doc -> nat -> string;
  matchesUndefined : string -> Doc -> bool;
  jwtVerify : nat -> string -> string + Doc;
  uploadAssetsOnCloudinary : option string -> option Asset
}.

(** A Mongoose query. [User.findById(..)], [User.findOne(..)] and
    [User.findByIdAndUpdate(..)] build a query object and do not touch the
    store; the query is sent when its result is asked for, by [await] (its
    [then]) or by [exec()]. A query that is built and dropped is never sent. *)
Inductive Query : Type :=
| FindById (id : option Value)
| FindOne (anyOf : list (string * option string))
| FindByIdAndUpdate (id : option Value) (set : list (string * option Value)).

(** [$set]: a key whose value is [undefined] is dropped from the update
    before it is sent (Mongoose 6 and later). *)
Definition applySet (set : list (string * option Value)) (d : Doc) : Doc :=
  fold_left
    (fun acc kv => match snd kv with
                   | Some v => <[fst kv := v]> acc
                   | None => acc
                   end)
    set d.

(** Replace the first document that satisfies [p]. *)
Fixpoint updateFirst (p : Doc -> bool) (f : Doc -> Doc) (us : list Doc)
  : option (list Doc) :=
  match us with
  | [] => None
  | d :: us' =>
      if p d then Some (f d :: us')
      else option_map (cons d) (updateFirst p f us')
  end.

Definition byId (id : option Value) (d : Doc) : bool :=
  match id with
  | Some v => fieldIs "_id" v d
  | None => false
  end.

Definition oidOf (d : Doc) : nat :=
  match d !! "_id" with
  | Some (VOid n) => n
  | _ => 0
  end.

(** The [_id] given to a new document: one not in the collection. *)
Definition freshId (us : list Doc) : nat :=
  S (fold_right (fun d acc => Nat.max (oidOf d) acc) 0 us).

(** ** Requests *)

(** A file multer stored on disk. *)
Record File : Type := mkFile { path : option string }.

(** [req.files] after [upload.fields]: a key is there only if a file of that
    field came with the request. *)
Record Files : Type := mkFiles {
  avatar : option (list File);
  coverImage : option (list File)
}.

(** The text fields of the registration form and [req.files]. A field of
    the body is a string, or it is absent. *)
Record RegisterReq : Type := mkRegisterReq {
  reg_fullname : option string;
  reg_username : option string;
  reg_email : option string;
  reg_password : option string;
  reg_files : option Files
}.

Record LoginReq : Type := mkLoginReq {
  login_email : option string;
  login_password : option string
}.

(** [req.cookies.refreshToken] and [req.body.refreshToken]. *)
Record RefreshReq : Type := mkRefreshReq {
  cookieRefreshToken : option string;
  bodyRefreshToken : option string
}.

(** [req.user] is what the authentication middleware resolved. *)
Record ChangePasswordReq : Type := mkChangePasswordReq {
  cp_user : option Doc;
  oldPassword : option string;
  newPassword : option string
}.

Record UpdateDetailsReq : Type := mkUpdateDetailsReq {
  ud_user : option Doc;
  ud_fullName : option string;
  ud_email : option string
}.

Record ProfileReq : Type := mkProfileReq {
  paramUsername : option string;
  caller : option Doc
}.

(** [req.user] and the single file of [upload.single]: [req.file] is there
    only if a file came with the request. *)
Record UpdateFileReq : Type := mkUpdateFileReq {
  uf_user : option Doc;
  uf_file : option File
}.

(** What a handler leaves behind when it returns normally: a response it
    sent, or nothing at all. *)
Inductive Reply : Type :=
| Sent (r : Response)
| NoReply.

(** [files?.field[0]?.path]: short-circuits on [files] only. *)
Definition firstPath (files : option Files) (field : Files -> option (list File))
  : Exn + option string :=
  match files with
  | None => inr None
  | Some fs =>
      match field fs with
      | None => inl (TypeError "Cannot read properties of undefined (reading '0')")
      | Some [] => inr None
      | Some (f :: _) => inr (path f)
      end
  end.

(** [s.toLowerCase()] with [s] possibly [undefined]. *)
Definition toLowerCaseOf (s : option string) : Exn + string :=
  match s with
  | Some s => inr (Js.toLowerCase s)
  | None => inl (TypeError "Cannot read properties of undefined (reading 'toLowerCase')")
  end.

(** [req.user._id] *)
Definition idOfUser (user : option Doc) : Exn + option Value :=
  match user with
  | Some u => inr (u !! "_id")
  | None => inl (TypeError "Cannot read properties of undefined (reading '_id')")
  end.

(** [incoming !== stored] for a presented string and a stored field. *)
Definition strictNe (incoming : option string) (stored : option Value) : bool :=
  match incoming, stored with
  | Some s, Some (VStr t) => negb (String.eqb s t)
  | None, None => false
  | _, _ => true
  end.

(** The cookie options [{ httpOnly: true, secure: true }] are the same
    constant on every call and are left out of [Response]. *)
Definition respond (status : nat) (set : list (string * option string))
    (cleared : list string) (body : ApiResponse) : Reply :=
  Sent (mkResponse status set cleared body).

(** ** Aggregation pipelines *)

(** The expressions the controller's [$addFields] stages use. *)
Inductive Expr : Type :=
| Size (array : string)
| CondIn (needle : option Value) (array field : string).

Inductive Stage : Type :=
| Match (key : string) (v : Value)
| Lookup (from localField foreignField as_ : string)
| AddFields (fields : list (string * Expr))
| Project (keep : list string).

(** The equality of a [$lookup] join: a missing field joins as [null], an
    array-valued field joins through its elements. *)
Definition joins (localV foreignV : option Value) : bool :=
  let l := default VNull localV in
  let f := default VNull foreignV in
  value_eqb l f
  || match f with VArr items => existsb (value_eqb l) items | _ => false end
  || match l with VArr items => existsb (fun x => value_eqb x f) items | _ => false end.

(** ["$array.field"]: the [field] of every element that has it. *)
Definition pluck (field : string) (items : list Value) : list Value :=
  flat_map
    (fun item =>
       match item with
       | VObj fields =>
           match find (fun kv => String.eqb (fst kv) field) fields with
           | Some kv => [snd kv]
           | None => []
           end
       | _ => []
       end)
    items.

Definition evalExpr (e : Expr) (d : Doc) : Exn + Value :=
  match e with
  | Size array =>
      match d !! array with
      | Some (VArr items) => inr (VNum (length items))
      | _ => inl (OtherError "The argument to $size must be an array")
      end
  | CondIn needle array field =>
      match d !! array with
      | Some (VArr items) =>
          inr (VBool (existsb (value_eqb (default VNull needle)) (pluck field items)))
      | _ => inl (OtherError "$in requires an array as a second argument")
      end
  end.

(** Every expression of one [$addFields] stage reads the incoming document. *)
Fixpoint addFields (fields : list (string * Expr)) (src acc : Doc) : Exn + Doc :=
  match fields with
  | [] => inr acc
  | (k, e) :: rest =>
      match evalExpr e src with
      | inl err => inl err
      | inr v => addFields rest src (<[k := v]> acc)
      end
  end.

Fixpoint mapE {A B} (f : A -> Exn + B) (l : list A) : Exn + list B :=
  match l with
  | [] => inr []
  | x :: l' =>
      match f x with
      | inl err => inl err
      | inr y =>
          match mapE f l' with
          | inl err => inl err
          | inr ys => inr (y :: ys)
          end
      end
  end.

Definition collection (w : World) (name : string) : list Doc :=
  if String.eqb name "subscriptions" then subscriptions w
  else if String.eqb name "users" then users w
  else [].

Definition runStage (w : World) (st : Stage) (docs : list Doc) : Exn + list Doc :=
  match st with
  | Match key v => inr (List.filter (fieldIs key v) docs)
  | Lookup from localField foreignField as_ =>
      inr (map (fun d =>
                  <[as_ := VArr (map embed
                                   (List.filter
                                      (fun f => joins (d !! localField) (f !! foreignField))
                                      (collection w from)))]> d)
               docs)
  | AddFields fields => mapE (fun d => addFields fields d d) docs
  | Project keep =>
      inr (map (fun d => filter (fun kv => fst kv ∈ "_id" :: keep) d) docs)
  end.

Fixpoint runPipeline (w : World) (stages : list Stage) (docs : list Doc)
  : Exn + list Doc :=
  match stages with
  | [] => inr docs
  | st :: rest =>
      match runStage w st docs with
      | inl err => inl err
      | inr docs' => runPipeline w rest docs'
      end
  end.

(** [User.aggregate(pipeline)] *)
Definition aggregate (stages : list Stage) : M (list Doc) :=
  fun w => (runPipeline w stages (users w), w).

Section Controller.

Variable C : Collab.

Local Open Scope handler_scope.

(** *** The store *)

Definition condHolds (cond : string * option string) (d : Doc) : bool :=
  match snd cond with
  | Some s => fieldIs (fst cond) (VStr s) d
  | None => matchesUndefined C (fst cond) d
  end.

(** [await query] *)
Definition await (q : Query) : M (option Doc) :=
  fun w =>
    match q with
    | FindById id => (inr (find (byId id) (users w)), w)
    | FindOne anyOf =>
        (inr (find (fun d => existsb (fun c => condHolds c d) anyOf)
                   (users w)), w)
    | FindByIdAndUpdate id set =>
        match updateFirst (byId id) (applySet set) (users w) with
        | Some us => (inr (find (byId id) us), setUsers us w)
        | None => (inr None, w)
        end
    end.

(** Modelled from the spec: the pre-save hook of the [User] schema (the model
    file is not among the sources), through which a password is stored
    hashed and every other path as it is. *)
Definition preSave (key : string) (v : Value) : Value :=
  match v with
  | VStr s => if String.eqb key "password" then VStr (hashPassword C s) else v
  | _ => v
  end.

(** Modelled from the spec: [User.create] of the Mongoose model, which is
    not among the sources. The new record keeps the paths of the object it
    is given that the schema declares (a key whose value is [undefined] is no
    field), its password goes through the pre-save hook, and it gets a new
    [_id]. *)
Definition castToSchema (obj : list (string * option Value)) : Doc :=
  fold_right
    (fun kv acc => match snd kv with
                   | Some v => if schemaPath C (fst kv)
                               then <[fst kv := preSave (fst kv) v]> acc
                               else acc
                   | None => acc
                   end)
    ∅ obj.

Definition create (obj : list (string * option Value)) : M Doc :=
  fun w =>
    let d := <["_id" := VOid (freshId (users w))]> (castToSchema obj) in
    (inr d, setUsers (users w ++ [d]) w).

(** Modelled from the spec: [user.save()] of a loaded document, which
    writes the paths modified since it was loaded (a modified password goes
    through the pre-save hook) to the stored record with the same [_id]. *)
Definition writePath (user : Doc) (key : string) (stored : Doc) : Doc :=
  match user !! key with
  | Some v => <[key := preSave key v]> stored
  | None => delete key stored
  end.

Definition save (user : Doc) (modifiedPaths : list string) : M unit :=
  fun w =>
    match updateFirst (byId (user !! "_id"))
                      (fun stored => fold_right (writePath user) stored modifiedPaths)
                      (users w) with
    | Some us => (inr tt, setUsers us w)
    | None => (inl (OtherError "No document found for query"), w)
    end.

Definition upload (localPath : option string) : M (option Asset) :=
  fun w => (inr (uploadAssetsOnCloudinary C localPath), logUpload localPath w).

(** *** generateAccessAndRefreshTokens (lines 79-91) *)

Definition generateAccessAndRefreshTokens (userId : option Value)
  : M (string * string) :=
  tryCatch
    (user <- await (FindById userId) ;;
     match user with
     | None =>
         throw (TypeError "Cannot read properties of null (reading 'generateAccessToken')")
     | Some user =>
         w <- get ;;
         let accessToken := generateAccessToken C user (now w) in
         let refreshToken := generateRefreshToken C user (now w) in
         let user := <["refreshToken" := VStr refreshToken]> user in
         save user ["refreshToken"] ;;;
         ret (accessToken, refreshToken)
     end)
    (fun error => throw (ApiError 500 "Error generating tokens")).

(** *** Promises nobody awaits *)

Definition runTask (t : Task) : M unit :=
  match t with
  | TaskIssueTokens userId =>
      _ <- generateAccessAndRefreshTokens userId ;; ret tt
  | TaskSave user modifiedPaths => save user modifiedPaths
  end.

(** The world once every started promise has settled (a rejection of a
    promise nobody awaits reaches no handler). *)
Definition settle (w : World) : World :=
  fold_left (fun w' t => snd (runTask t w')) (pending w) (clearPending w).

(** *** registerUser (lines 93-148) *)

Definition registerUser (req : RegisterReq) : M Reply :=
  let fullname := reg_fullname req in
  let username := reg_username req in
  let email := reg_email req in
  let password := reg_password req in
  throwIf (existsb Js.trimsToEmpty [fullname; username; email; password])
          (ApiError 400 "All fields are required") ;;;
  existingUser <- await (FindOne [("username", username); ("email", email)]) ;;
  throwIf (isSome existingUser)
          (ApiError 409 "User with email or username already exists") ;;;
  avatarLocalPath <- liftE (firstPath (reg_files req) avatar) ;;
  coverImageLocalPath <- liftE (firstPath (reg_files req) coverImage) ;;
  throwIf (negb (Js.truthy avatarLocalPath))
          (ApiError 400 "Avatar file is required") ;;;
  avatar <- upload avatarLocalPath ;;
  coverImage <- upload coverImageLocalPath ;;
  throwIf (negb (isSome avatar))
          (ApiError 400 "Error uploading avatar file to cloudinary") ;;;
  userName <- liftE (toLowerCaseOf username) ;;
  lowEmail <- liftE (toLowerCaseOf email) ;;
  user <- create [ ("fullName", VStr <$> fullname);
                   ("userName", Some (VStr userName));
                   ("avatar", VStr <$> (url <$> avatar));
                   ("coverImage", VStr <$> Js.or (url <$> coverImage) (Some ""));
                   ("email", Some (VStr lowEmail));
                   ("password", VStr <$> password) ] ;;
  createdUser <- await (FindById (user !! "_id")) ;;
  match selectSafe <$> createdUser with
  | None => throw (ApiError 500 "Error creating user in the database")
  | Some createdUser =>
      ret (respond 201 [] []
             (mkApiResponse 200 (DataDoc createdUser) "User created successfully"))
  end.

(** *** loginUser (lines 150-175) *)

Definition loginUser (req : LoginReq) : M Reply :=
  let email := login_email req in
  let password := login_password req in
  throwIf (negb (Js.truthy email) || negb (Js.truthy password))
          (ApiError 400 "Email and password are required") ;;;
  user <- await (FindOne [("email", email)]) ;;
  match user with
  | None => throw (ApiError 404 "User with email does not exist")
  | Some user =>
      throwIf (negb (isPasswordCorrect C user password))
              (ApiError 401 "Password is incorrect") ;;;
      tokens <- generateAccessAndRefreshTokens (user !! "_id") ;;
      let accessToken := Some (fst tokens) in
      let refreshToken := Some (snd tokens) in
      loggedInUser <- await (FindById (user !! "_id")) ;;
      ret (respond 200
             [("accessToken", accessToken); ("refreshToken", refreshToken)] []
             (mkApiResponse 200
                (DataLogin (selectSafe <$> loggedInUser) accessToken refreshToken)
                "User logged in successfully"))
  end.

(** *** logoutUser (lines 178-194)

    The update query is built and dropped: the handler neither awaits it nor
    calls [exec] on it, so the store never sees it. [req.user] is the record
    the authentication middleware resolved. *)

Definition logoutUser (req_user : option Doc) : M Reply :=
  id <- liftE (idOfUser req_user) ;;
  let _query := FindByIdAndUpdate id [("refreshToken", None)] in
  ret (respond 200 [] ["accessToken"; "refreshToken"]
         (mkApiResponse 200 DataEmpty "User logged out successfully")).

(** *** refreshAccessToken (lines 196-224) *)

Definition verify (token : option string) : M Doc :=
  fun w =>
    match token with
    | Some t =>
        match jwtVerify C (now w) t with
        | inl msg => (inl (OtherError msg), w)
        | inr decoded => (inr decoded, w)
        end
    | None => (inl (OtherError "jwt must be provided"), w)
    end.

(** [const { accessToken, refreshToken } = promise]: a promise has neither
    property. *)
Definition propertyOfPromise (t : Task) (name : string) : option string := None.

(** The [catch] block: an [ApiError] is constructed and that is all. *)
Definition refreshCatch (error : Exn) : M Reply :=
  let message :=
    Js.or (Some (exnMessage error)) (Some "Invalid refresh token") in
  let _unused := ApiError 400 (default "" message) in
  ret NoReply.

(** The body of the [try] block. *)
Definition refreshGuarded (incomingRefreshToken : option string) : M Reply :=
  decodedToken <- verify incomingRefreshToken ;;
  user <- await (FindById (decodedToken !! "_id")) ;;
  throwIf (negb (isSome user)) (ApiError 401 "Invalid Refresh Token") ;;;
  throwIf (strictNe incomingRefreshToken (user ≫= (.!! "refreshToken")))
          (ApiError 401 "Refresh token is expired or used") ;;;
  let promise := TaskIssueTokens (user ≫= (.!! "_id")) in
  modify (enqueue promise) ;;;
  let accessToken := propertyOfPromise promise "accessToken" in
  let refreshToken := propertyOfPromise promise "refreshToken" in
  ret (respond 200
         [("accessToken", accessToken); ("refreshToken", refreshToken)] []
         (mkApiResponse 200 (DataTokens accessToken refreshToken)
            "Access token refreshed successfully")).

Definition refreshAccessToken (req : RefreshReq) : M Reply :=
  let incomingRefreshToken :=
    Js.or (cookieRefreshToken req) (bodyRefreshToken req) in
  throwIf (negb (Js.truthy incomingRefreshToken))
          (ApiError 401 "Error: Did not receive refresh token") ;;;
  tryCatch (refreshGuarded incomingRefreshToken) refreshCatch.

(** *** changePassword (lines 226-246); [user.save] is not awaited *)

Definition changePassword (req : ChangePasswordReq) : M Reply :=
  throwIf (negb (Js.truthy (oldPassword req)) || negb (Js.truthy (newPassword req)))
          (ApiError 400 "Old and new password are required") ;;;
  user <- await (FindById (cp_user req ≫= (.!! "_id"))) ;;
  match user with
  | None => throw (ApiError 404 "User not found")
  | Some user =>
      throwIf (negb (isPasswordCorrect C user (oldPassword req)))
              (ApiError 401 "Old password is incorrect") ;;;
      let user := match newPassword req with
                  | Some p => <["password" := VStr p]> user
                  | None => delete "password" user
                  end in
      modify (enqueue (TaskSave user ["password"])) ;;;
      ret (respond 200 [] []
             (mkApiResponse 200 DataEmpty "Password changed successfully"))
  end.

(** *** updateUserDetails (lines 254-267): here the update query is awaited *)

Definition updateUserDetails (req : UpdateDetailsReq) : M Reply :=
  throwIf (negb (Js.truthy (ud_fullName req)) || negb (Js.truthy (ud_email req)))
          (ApiError 400 "Fullname and email are required") ;;;
  id <- liftE (idOfUser (ud_user req)) ;;
  user <- await (FindByIdAndUpdate id
                   [("fullName", VStr <$> ud_fullName req);
                    ("email", VStr <$> ud_email req)]) ;;
  ret (respond 200 [] []
         (mkApiResponse 200
            (match selectSafe <$> user with
             | Some u => DataDoc u
             | None => DataNull
             end)
            "User details updated successfully")).

(** *** getUserChannelProfile (lines 313-383) *)

Definition channelPipeline (username : string) (caller : option Doc)
  : list Stage :=
  [ Match "username" (VStr (Js.toLowerCase username));
    Lookup "subscriptions" "_id" "channel" "subscribers";
    Lookup "subscriptions" "_id" "subscriber" "subscribedTo";
    AddFields
      [ ("subscribersCount", Size "subscribers");
        ("channelsSubscribedToCount", Size "subscribedTo");
        ("isSubscribed", CondIn (caller ≫= (.!! "_id")) "subscribers" "subscriber") ];
    Project [ "fullName"; "username"; "subscribersCount";
              "channelsSubscribedToCount"; "isSubscribed"; "avatar";
              "coverImage"; "email" ] ].

Definition getUserChannelProfile (req : ProfileReq) : M Reply :=
  match paramUsername req with
  | None => throw (ApiError 400 "username is missing")
  | Some username =>
      throwIf (negb (Js.truthy (Some (Js.trim username))))
              (ApiError 400 "username is missing") ;;;
      channel <- aggregate (channelPipeline username (caller req)) ;;
      match channel with
      | [] => throw (ApiError 404 "channel does not exists")
      | first :: _ =>
          ret (respond 200 [] []
                 (mkApiResponse 200 (DataDoc first)
                    "User channel fetched successfully"))
      end
  end.

(** *** updateUserAvatar (lines 269-289) *)

Definition updateUserAvatar (req : UpdateFileReq) : M Reply :=
  let avatarLocalPath := uf_file req ≫= path in
  throwIf (negb (Js.truthy avatarLocalPath))
          (ApiError 400 "Avatar file is required") ;;;
  avatar <- upload avatarLocalPath ;;
  match avatar with
  | None => throw (ApiError 400 "Error uploading avatar file to cloudinary")
  | Some avatar =>
      id <- liftE (idOfUser (uf_user req)) ;;
      user <- await (FindByIdAndUpdate id [("avatar", Some (VStr (url avatar)))]) ;;
      ret (respond 200 [] []
             (mkApiResponse 200
                (match selectSafe <$> user with
                 | Some u => DataDoc u
                 | None => DataNull
                 end)
                "User avatar updated successfully"))
  end.

(** *** updateUserCoverImage (lines 291-311) *)

Definition updateUserCoverImage (req : UpdateFileReq) : M Reply :=
  let coverImageLocalPath := uf_file req ≫= path in
  throwIf (negb (Js.truthy coverImageLocalPath))
          (ApiError 400 "Cover Image file is required") ;;;
  coverImage <- upload coverImageLocalPath ;;
  match coverImage with
  | None => throw (ApiError 400 "Error uploading coverImage file to cloudinary")
  | Some coverImage =>
      id <- liftE (idOfUser (uf_user req)) ;;
      user <- await (FindByIdAndUpdate id
                       [("coverImage", Some (VStr (url coverImage)))]) ;;
      ret (respond 200 [] []
             (mkApiResponse 200
                (match selectSafe <$> user with
                 | Some u => DataDoc u
                 | None => DataNull
                 end)
                "User cover Image updated successfully"))
  end.

(** *** loginUser of the earlier revision (src/unnamed/part_000, lines 79-108)

    It differs from the later [loginUser] in two places: the sanitising
    query [User.findById(..).select(..)] is built and dropped, and the reply
    carries the record found at the start. *)


End Controller.

(** ** Vocabulary of the properties *)

(** The stored refresh token of the first user record with the given id. *)
Definition storedRefreshToken (w : World) (id : Value) : option Value :=
  find (byId (Some id)) (users w) ≫= (.!! "refreshToken").

(** The ways in which the verification of a presented refresh token fails
    inside the guarded block of [refreshAccessToken]. *)
Inductive VerificationFails (C : Collab) (w : World) (token : string) : Prop :=
| BadSignatureOrExpiry (msg : string) :
    jwtVerify C (now w) token = inl msg ->
    VerificationFails C w token
| UnresolvableSubject (decoded : Doc) :
    jwtVerify C (now w) token = inr decoded ->
    find (byId (decoded !! "_id")) (users w) = None ->
    VerificationFails C w token
| StoredTokenMismatch (decoded user : Doc) :
    jwtVerify C (now w) token = inr decoded ->
    find (byId (decoded !! "_id")) (users w) = Some user ->
    user !! "refreshToken" <> Some (VStr token) ->
    VerificationFails C w token.

(** The guard of [refreshAccessToken] as a test: the token verifies, its
    subject is a user, and it is that user's stored refresh token. *)
Definition sessionValid (C : Collab) (w : World) (token : string) : bool :=
  match jwtVerify C (now w) token with
  | inl _ => false
  | inr decoded =>
      match find (byId (decoded !! "_id")) (users w) with
      | None => false
      | Some user => negb (strictNe (Some token) (user !! "refreshToken"))
      end
  end.

(** No field of the registration body is a string that trims to the empty
    string: the request passes the check of lines 99-101. *)
Definition noBlankField (req : RegisterReq) : Prop :=
  forall s : string,
    In (Some s) [reg_fullname req; reg_username req; reg_email req; reg_password req] ->
    Js.trim s <> "".

(** The presented value is a string and the record stores it under [key]. *)
Definition belongsTo (key : string) (presented : option string) (u : Doc) : Prop :=
  exists s : string, presented = Some s /\ u !! key = Some (VStr s).

(** Two states of one record that differ at most in the password. *)
Definition samePublicFields (before after : Doc) : Prop :=
  forall key : string, key <> "password" -> after !! key = before !! key.

(** The status code with which a handler fails, if it fails with an
    [ApiError]. *)
Definition apiStatus (r : Exn + Reply) : option nat :=
  match r with
  | inl (ApiError code _) => Some code
  | _ => None
  end.

(** Two states of one record that differ at most in the listed fields. *)
Definition sameExcept (keys : list string) (before after : Doc) : Prop :=
  forall key : string, ~ In key keys -> after !! key = before !! key.

(** A value of a field of a record of the store, by the record's [_id]. *)
Definition storedField (w : World) (id : Value) (key : string) : option Value :=
  find (byId (Some id)) (users w) ≫= (.!! key).

(** The ways in which [loginUser] turns a request down, with the error of
    each. *)
Inductive LoginRejected (C : Collab) (w : World) (req : LoginReq) : Exn -> Prop :=
| LoginMissingCredentials :
    Js.truthy (login_email req) = false \/ Js.truthy (login_password req) = false ->
    LoginRejected C w req (ApiError 400 "Email and password are required")
| LoginUnknownEmail (email : string) :
    login_email req = Some email -> email <> "" ->
    Js.truthy (login_password req) = true ->
    (forall u, u ∈ users w -> u !! "email" <> Some (VStr email)) ->
    LoginRejected C w req (ApiError 404 "User with email does not exist")
| LoginWrongPassword (user : Doc) :
    Js.truthy (login_email req) = true ->
    Js.truthy (login_password req) = true ->
    await C (FindOne [("email", login_email req)]) w = (inr (Some user), w) ->
    isPasswordCorrect C user (login_password req) = false ->
    LoginRejected C w req (ApiError 401 "Password is incorrect").

(** The ways in which [changePassword] turns a request down. *)
Inductive PasswordChangeRejected (C : Collab) (w : World) (req : ChangePasswordReq)
  : Exn -> Prop :=
| PasswordMissing :
    Js.truthy (oldPassword req) = false \/ Js.truthy (newPassword req) = false ->
    PasswordChangeRejected C w req (ApiError 400 "Old and new password are required")
| PasswordUserGone :
    Js.truthy (oldPassword req) = true -> Js.truthy (newPassword req) = true ->
    find (byId (cp_user req ≫= (.!! "_id"))) (users w) = None ->
    PasswordChangeRejected C w req (ApiError 404 "User not found")
| PasswordOldWrong (user : Doc) :
    Js.truthy (oldPassword req) = true -> Js.truthy (newPassword req) = true ->
    find (byId (cp_user req ≫= (.!! "_id"))) (users w) = Some user ->
    isPasswordCorrect C user (oldPassword req) = false ->
    PasswordChangeRejected C w req (ApiError 401 "Old password is incorrect").

(** The subscription edges that join a record through [field]. *)
Definition edges (w : World) (u : Doc) (field : string) : list Doc :=
  List.filter (fun s => joins (u !! "_id") (s !! field)) (subscriptions w).

(** The ways in which [getUserChannelProfile] turns a request down. *)
Inductive ProfileRejected (w : World) (req : ProfileReq) : Exn -> Prop :=
| ProfileNoUsername :
    paramUsername req = None ->
    ProfileRejected w req (ApiError 400 "username is missing")
| ProfileBlankUsername (username : string) :
    paramUsername req = Some username -> Js.trim username = "" ->
    ProfileRejected w req (ApiError 400 "username is missing")
| ProfileUnknownUsername (username : string) :
    paramUsername req = Some username -> Js.trim username <> "" ->
    (forall u, u ∈ users w ->
               u !! "username" <> Some (VStr (Js.toLowerCase username))) ->
    ProfileRejected w req (ApiError 404 "channel does not exists").

(** The fields of a user record that a channel profile shows as they are. *)
Definition shownInProfile : list string :=
  ["_id"; "fullName"; "username"; "avatar"; "coverImage"; "email"].

(** The fields a channel profile computes. *)
Definition computedInProfile : list string :=
  ["subscribersCount"; "channelsSubscribedToCount"; "isSubscribed"].

(** ** Fixtures: concrete collaborators, worlds and requests *)

Module Fixture.

(** Tokens of a single-user world: the first pair is minted at time 0, the
    second at any later time; both decode to user 7. *)
Definition payload : Doc := {[ "_id" := VOid 7 ]}.

Definition collab : Collab := {|
  schemaPath := fun _ => true;
  hashPassword := fun p => "#" ++ p;
  isPasswordCorrect := fun d p =>
    match d !! "password", p with
    | Some (VStr h), Some p => String.eqb h ("#" ++ p)
    | _, _ => false
    end;
  generateAccessToken := fun _ t => if Nat.eqb t 0 then "A1" else "A2";
  generateRefreshToken := fun _ t => if Nat.eqb t 0 then "T1" else "T2";
  matchesUndefined := fun _ _ => false;
  jwtVerify := fun _ token =>
    if String.eqb token "T1" || String.eqb token "T2" then inr payload
    else inl "invalid signature";
  uploadAssetsOnCloudinary := fun p =>
    match p with
    | Some s => Some (mkAsset ("https://cdn" ++ s))
    | None => None
    end
|}.

Definition bob (refreshToken : string) : Doc :=
  {[ "_id" := VOid 7; "username" := VStr "bob"; "fullName" := VStr "Bob";
     "email" := VStr "bob@x.io"; "password" := VStr "#pw";
     "refreshToken" := VStr refreshToken ]}.

Definition empty : World := mkWorld [] [] [] 0 [].

(** Bob is logged in with refresh token T1; nobody follows him, he follows
    nobody. *)
Definition loggedIn : World :=
  mkWorld [bob "T1"]
          [ {[ "channel" := VOid 8; "subscriber" := VOid 9 ]} ] [] 0 [].

(** The same world after a rotation to T2. *)
Definition rotated : World :=
  mkWorld [bob "T2"]
          [ {[ "channel" := VOid 8; "subscriber" := VOid 9 ]} ] [] 1 [].

Definition presentT1 : RefreshReq := mkRefreshReq (Some "T1") None.

Definition bobChangesPassword : ChangePasswordReq :=
  mkChangePasswordReq (Some (selectSafe (bob "T1"))) (Some "pw") (Some "pw2").

Definition twoFiles : option Files :=
  Some (mkFiles (Some [mkFile (Some "/tmp/a.png")])
                (Some [mkFile (Some "/tmp/c.png")])).

Definition avatarOnly : option Files :=
  Some (mkFiles (Some [mkFile (Some "/tmp/a.png")]) None).

(** [req.files] with a [coverImage] key that lists no file. *)
Definition emptyCoverList : Files :=
  mkFiles (Some [mkFile (Some "/tmp/a.png")]) (Some []).

Definition registerAnn (files : option Files) : RegisterReq :=
  mkRegisterReq (Some "Ann Lee") (Some "Ann") (Some "Ann@x.io") (Some "pw") files.

(** The body has no [username] key. *)
Definition registerNoUsername : RegisterReq :=
  mkRegisterReq (Some "Ann Lee") None (Some "Ann@x.io") (Some "pw") twoFiles.

(** Bob's email again, and a full name of two spaces. *)
Definition registerBobAgainBlankName : RegisterReq :=
  mkRegisterReq (Some "  ") (Some "bobby") (Some "bob@x.io") (Some "pw") twoFiles.

Definition registerBobAgain : RegisterReq :=
  mkRegisterReq (Some "Bobby") (Some "bobby") (Some "bob@x.io") (Some "pw") twoFiles.

(** Bob has two followers (9 and 10) and follows one channel (8). *)
Definition followed : World :=
  mkWorld [bob "T1"]
          [ {[ "channel" := VOid 7; "subscriber" := VOid 9 ]};
            {[ "channel" := VOid 8; "subscriber" := VOid 7 ]};
            {[ "channel" := VOid 7; "subscriber" := VOid 10 ]} ] [] 0 [].

Definition bobLogsIn (password : string) : LoginReq :=
  mkLoginReq (Some "bob@x.io") (Some password).

Definition bobSendsFile (localPath : option string) : UpdateFileReq :=
  mkUpdateFileReq (Some (selectSafe (bob "T1"))) (Some (mkFile localPath)).

Definition bobRenames : UpdateDetailsReq :=
  mkUpdateDetailsReq (Some (selectSafe (bob "T1"))) (Some "Robert") (Some "rob@x.io").

End Fixture.

(** * Properties *)

(** ** Helper facts *)

Arguments strictNe : simpl never.

Lemma truthy_Some (s : string) : Js.truthy (Some s) = true <-> s <> "".
Proof.
  unfold Js.truthy. destruct (String.eqb_spec s ""); simpl; split; congruence.
Qed.

Lemma strictNe_Some (token : string) (stored : option Value) :
  strictNe (Some token) stored = true <-> stored <> Some (VStr token).
Proof.
  unfold strictNe.
  destruct stored as [[t| | | | | |]|]; try (split; [congruence | reflexivity]).
  destruct (String.eqb_spec token t) as [->|Hne]; simpl; split; congruence.
Qed.

Lemma filter_none {A} (p : A -> bool) (l : list A) :
  (forall x, x ∈ l -> p x = false) -> List.filter p l = [].
Proof.
  induction l as [| y l IH]; intros Hno; simpl; [reflexivity |].
  rewrite (Hno y); [| left]. apply IH. intros x Hx. apply Hno. right. exact Hx.
Qed.

(** Inversion of the monad's operations on a normal return. *)
Lemma bind_inr {A B} (m : M A) (k : A -> M B) (w w' : World) (b : B) :
  bind m k w = (inr b, w') ->
  exists a w1, m w = (inr a, w1) /\ k a w1 = (inr b, w').
Proof.
  unfold bind. destruct (m w) as [[e | a] w1]; [discriminate |]. eauto.
Qed.

Lemma throwIf_inr (cond : bool) (e : Exn) (w w' : World) (u : unit) :
  throwIf cond e w = (inr u, w') -> cond = false /\ w' = w.
Proof. destruct cond; simpl; [discriminate |]. intros [= _ <-]. auto. Qed.

Lemma liftE_inr {A} (r : Exn + A) (w w' : World) (a : A) :
  liftE r w = (inr a, w') -> r = inr a /\ w' = w.
Proof. unfold liftE. intros [= -> <-]. auto. Qed.

Section RefreshProperties.

Variable C : Collab.

(** With a token presented, the handler is its [try]/[catch] statement. *)
Lemma refreshAccessToken_presented (req : RefreshReq) (w : World) (token : string) :
  Js.or (cookieRefreshToken req) (bodyRefreshToken req) = Some token ->
  token <> "" ->
  refreshAccessToken C req w
  = tryCatch (refreshGuarded C (Some token)) refreshCatch w.
Proof.
  intros Hinc Hne. unfold refreshAccessToken. rewrite Hinc.
  apply truthy_Some in Hne. unfold bind at 1, throwIf. rewrite Hne. reflexivity.
Qed.

(** The guarded block raises an error whenever verification fails. *)
Lemma refreshGuarded_fails (w : World) (token : string) :
  VerificationFails C w token ->
  exists error, refreshGuarded C (Some token) w = (inl error, w).
Proof.
  intros [msg Hv | decoded Hv Hfind | decoded user Hv Hfind Hne];
    unfold refreshGuarded, bind, verify, await; rewrite Hv.
  - eauto.
  - rewrite Hfind. simpl. eauto.
  - rewrite Hfind. simpl.
    apply strictNe_Some in Hne. rewrite Hne. simpl. eauto.
Qed.

(** C3. Whenever the verification of a presented refresh token fails in the
    guarded block (bad signature or expiry, unresolvable subject, stored
    token mismatch), an error is raised there, and [refreshAccessToken]
    swallows it: the handler ends normally, has sent no reply, raises
    nothing, and leaves the world as it was. *)
Theorem refresh_failure_is_swallowed
    (req : RefreshReq) (w : World) (token : string) :
  Js.or (cookieRefreshToken req) (bodyRefreshToken req) = Some token ->
  token <> "" ->
  VerificationFails C w token ->
  (exists error, refreshGuarded C (Some token) w = (inl error, w)) /\
  refreshAccessToken C req w = (inr NoReply, w).
Proof.
  intros Hinc Hne Hfail.
  destruct (refreshGuarded_fails w token Hfail) as [error Herr].
  split; [eauto |].
  rewrite (refreshAccessToken_presented req w token Hinc Hne).
  unfold tryCatch. rewrite Herr. reflexivity.
Qed.

End RefreshProperties.

Lemma refresh_failure_is_swallowed_witness :
  refreshAccessToken Fixture.collab Fixture.presentT1 Fixture.rotated
  = (inr NoReply, Fixture.rotated).
Proof.
  apply (refresh_failure_is_swallowed Fixture.collab Fixture.presentT1
           Fixture.rotated "T1").
  - reflexivity.
  - discriminate.
  - apply (StoredTokenMismatch Fixture.collab Fixture.rotated "T1"
             Fixture.payload (Fixture.bob "T2")).
    + reflexivity.
    + vm_compute. reflexivity.
    + vm_compute. discriminate.
Defined.

(** ** Token refresh: what a caller gets back *)

Section RefreshReplies.

Variable C : Collab.

(** The [catch] block turns every error into a normal return. *)
Lemma tryCatch_refreshCatch (body : M Reply) (w : World) :
  exists reply w', tryCatch body refreshCatch w = (inr reply, w').
Proof.
  unfold tryCatch. destruct (body w) as [[error | reply] w']; simpl; eauto.
Qed.

(** Once a token is presented, [refreshAccessToken] raises no error at
    all, whatever the token is. *)
Lemma refreshAccessToken_raises_nothing
    (req : RefreshReq) (w : World) (token : string) :
  Js.or (cookieRefreshToken req) (bodyRefreshToken req) = Some token ->
  token <> "" ->
  exists reply w', refreshAccessToken C req w = (inr reply, w').
Proof.
  intros Hinc Hne. rewrite (refreshAccessToken_presented C req w token Hinc Hne).
  apply tryCatch_refreshCatch.
Qed.

(** The only reply the guarded block sends has [undefined] for both
    tokens, in the cookies and in the body, and the rotation it started is
    still pending. *)
Lemma refreshGuarded_reply (incoming : option string) (w w' : World) (reply : Reply) :
  refreshGuarded C incoming w = (inr reply, w') ->
  exists userId,
    reply = respond 200 [("accessToken", None); ("refreshToken", None)] []
              (mkApiResponse 200 (DataTokens None None)
                 "Access token refreshed successfully")
    /\ w' = enqueue (TaskIssueTokens userId) w.
Proof.
  unfold refreshGuarded, bind, verify, await, throwIf, modify, ret.
  destruct incoming as [token |]; [| discriminate].
  destruct (jwtVerify C (now w) token) as [msg | decoded]; [discriminate |].
  destruct (find (byId (decoded !! "_id")) (users w)) as [user |];
    simpl; [| discriminate].
  destruct (strictNe (Some token) (user !! "refreshToken"));
    simpl; [discriminate |].
  intros [= <- <-]. eauto.
Qed.

(** [sessionValid] is the test the guarded block makes: the block replies
    exactly when it holds, and it fails to hold exactly when the
    verification fails in one of the three ways. *)
Lemma sessionValid_false_iff (w : World) (token : string) :
  sessionValid C w token = false <-> VerificationFails C w token.
Proof.
  unfold sessionValid. split.
  - destruct (jwtVerify C (now w) token) as [msg | decoded] eqn:Hv.
    + intros _. exact (BadSignatureOrExpiry C w token msg Hv).
    + destruct (find (byId (decoded !! "_id")) (users w)) as [user |] eqn:Hfind.
      * intros Hne. apply negb_false_iff, strictNe_Some in Hne.
        exact (StoredTokenMismatch C w token decoded user Hv Hfind Hne).
      * intros _. exact (UnresolvableSubject C w token decoded Hv Hfind).
  - intros [msg Hv | decoded Hv Hfind | decoded user Hv Hfind Hne]; rewrite Hv;
      [reflexivity | |]; rewrite Hfind; [reflexivity |].
    apply negb_false_iff, strictNe_Some. exact Hne.
Qed.

Lemma sessionValid_true_iff (w : World) (token : string) :
  sessionValid C w token = true
  <-> exists reply w', refreshGuarded C (Some token) w = (inr reply, w').
Proof.
  split.
  - unfold sessionValid, refreshGuarded, bind, verify, await.
    destruct (jwtVerify C (now w) token) as [msg | decoded]; [discriminate |].
    destruct (find (byId (decoded !! "_id")) (users w)) as [user |]; [| discriminate].
    intros Hok. apply negb_true_iff in Hok. simpl. rewrite Hok. simpl. eauto.
  - intros (reply & w' & Hreply).
    destruct (sessionValid C w token) eqn:Hvalid; [reflexivity |].
    apply sessionValid_false_iff, (refreshGuarded_fails C) in Hvalid as [error Herr].
    congruence.
Qed.

Lemma refreshAccessToken_reply (req : RefreshReq) (w w' : World) (r : Response) :
  refreshAccessToken C req w = (inr (Sent r), w') ->
  cookiesSet r = [("accessToken", None); ("refreshToken", None)]
  /\ data (json r) = DataTokens None None.
Proof.
  unfold refreshAccessToken, bind at 1. unfold throwIf.
  destruct (negb (Js.truthy _)); simpl; [discriminate |].
  unfold tryCatch.
  destruct (refreshGuarded C _ w) as [[error | reply] w1] eqn:Hg.
  - unfold refreshCatch, ret. discriminate.
  - intros [= -> ->]. apply refreshGuarded_reply in Hg as (userId & Hr & _).
    injection Hr as ->. split; reflexivity.
Qed.

End RefreshReplies.

(** *** The sibling: login awaits the tokens *)

Section LoginReplies.

Variable C : Collab.

(** Every reply of [loginUser] carries an access token and a refresh token,
    in the cookies and in the body: here the result of
    [generateAccessAndRefreshTokens] is awaited. *)
Lemma loginUser_reply (req : LoginReq) (w w' : World) (r : Response) :
  loginUser C req w = (inr (Sent r), w') ->
  exists accessToken refreshToken user,
    cookiesSet r = [("accessToken", Some accessToken); ("refreshToken", Some refreshToken)]
    /\ data (json r) = DataLogin user (Some accessToken) (Some refreshToken).
Proof.
  unfold loginUser. intros H.
  apply bind_inr in H as (? & w1 & _ & H).
  apply bind_inr in H as (found & w2 & _ & H).
  destruct found as [user |]; [| discriminate].
  apply bind_inr in H as (? & w3 & _ & H).
  apply bind_inr in H as (tokens & w4 & _ & H).
  apply bind_inr in H as (loggedInUser & w5 & _ & H).
  injection H as <- _. simpl. eauto.
Qed.

End LoginReplies.

(** C1, at a concrete session. Bob holds refresh token T1. A first refresh
    with T1 is answered with status 200, and once the rotation it started has
    been carried out the store holds T2. Presenting T1 again is then not
    rejected with an authentication error: the handler ends normally without
    having sent anything, because the error raised by the mismatch is
    dropped by the [catch] block. *)
Theorem replayed_refresh_token_raises_no_error :
  let first := refreshAccessToken Fixture.collab Fixture.presentT1 Fixture.loggedIn in
  let later := settle Fixture.collab (atTime 1 (snd first)) in
  (exists r, fst first = inr (Sent r) /\ status r = 200)
  /\ storedRefreshToken later (VOid 7) = Some (VStr "T2")
  /\ refreshAccessToken Fixture.collab Fixture.presentT1 later = (inr NoReply, later)
  /\ apiStatus (fst (refreshAccessToken Fixture.collab Fixture.presentT1 later)) = None.
Proof.
  cbv zeta. split; [| split; [| split]].
  - eexists. split; [vm_compute; reflexivity | reflexivity].
  - vm_compute. reflexivity.
  - vm_compute. reflexivity.
  - vm_compute. reflexivity.
Qed.

(** C2, at a concrete session. A refresh that passes every check replies with
    status 200 but with [undefined] in both cookies and in both fields of the
    body: the promise of [generateAccessAndRefreshTokens] is destructured
    without being awaited. The new pair exists only in the rotation that is
    still pending when the reply is sent. *)
Theorem successful_refresh_returns_no_tokens :
  let result := refreshAccessToken Fixture.collab Fixture.presentT1 Fixture.loggedIn in
  fst result
  = inr (respond 200 [("accessToken", None); ("refreshToken", None)] []
           (mkApiResponse 200 (DataTokens None None)
              "Access token refreshed successfully"))
  /\ pending (snd result) = [TaskIssueTokens (Some (VOid 7))]
  /\ storedRefreshToken (snd result) (VOid 7) = Some (VStr "T1").
Proof.
  cbv zeta. repeat split; vm_compute; reflexivity.
Qed.

(** ** Registration *)

Lemma value_eqb_VStr_refl (s : string) : value_eqb (VStr s) (VStr s) = true.
Proof. simpl. apply String.eqb_refl. Qed.

Lemma find_isSome {A} (p : A -> bool) (l : list A) (x : A) :
  x ∈ l -> p x = true -> isSome (find p l) = true.
Proof.
  induction 1 as [x l | x y l _ IH]; intros Hp; simpl.
  - rewrite Hp. reflexivity.
  - destruct (p y); [reflexivity | auto].
Qed.

Lemma noBlankField_check (req : RegisterReq) :
  noBlankField req ->
  existsb Js.trimsToEmpty
    [reg_fullname req; reg_username req; reg_email req; reg_password req] = false.
Proof.
  intros Hno. apply not_true_is_false. intros Hex.
  apply existsb_exists in Hex as (field & Hin & Hblank).
  destruct field as [s |]; [| discriminate].
  simpl in Hblank. apply String.eqb_eq in Hblank.
  exact (Hno s Hin Hblank).
Qed.

Section RegistrationProperties.

Variable C : Collab.

(** A field that is present and blank after trimming stops the
    registration at once: client-input error, world untouched. *)
Lemma registerUser_blank_field_rejected (req : RegisterReq) (w : World) (s : string) :
  In (Some s) [reg_fullname req; reg_username req; reg_email req; reg_password req] ->
  Js.trim s = "" ->
  registerUser C req w = (inl (ApiError 400 "All fields are required"), w).
Proof.
  intros Hin Hblank.
  assert (Hex : existsb Js.trimsToEmpty
            [reg_fullname req; reg_username req; reg_email req; reg_password req]
          = true).
  { apply existsb_exists. exists (Some s). split; [exact Hin |].
    simpl. rewrite Hblank. reflexivity. }
  unfold registerUser, bind at 1. rewrite Hex. reflexivity.
Qed.

(** C5, amended. A registration whose four fields pass the blank check and
    whose presented username or email is the stored [username] or [email]
    of an existing record fails with the conflict error 409, and it does so
    before anything else happens: the world is unchanged, so no upload was
    made and no record written. *)
Theorem duplicate_registration_conflicts_before_upload
    (req : RegisterReq) (w : World) (u : Doc) :
  noBlankField req ->
  u ∈ users w ->
  belongsTo "username" (reg_username req) u \/ belongsTo "email" (reg_email req) u ->
  registerUser C req w
  = (inl (ApiError 409 "User with email or username already exists"), w).
Proof.
  intros Hno Hin Hdup.
  unfold registerUser, bind at 1. rewrite (noBlankField_check req Hno).
  unfold throwIf at 1, ret at 1. unfold bind at 1, await.
  assert (Hfound : isSome
            (find (fun d => existsb (fun c => condHolds C c d)
                              [("username", reg_username req); ("email", reg_email req)])
                  (users w)) = true).
  { apply (find_isSome _ _ u Hin).
    destruct Hdup as [(s & Hp & Hs) | (s & Hp & Hs)];
      unfold existsb, condHolds, fieldIs; simpl; rewrite Hp; simpl; rewrite Hs;
      rewrite value_eqb_VStr_refl; [reflexivity | apply orb_true_r]. }
  unfold bind at 1. rewrite Hfound. reflexivity.
Qed.

End RegistrationProperties.

Lemma duplicate_registration_conflicts_before_upload_witness :
  registerUser Fixture.collab Fixture.registerBobAgain Fixture.loggedIn
  = (inl (ApiError 409 "User with email or username already exists"),
     Fixture.loggedIn).
Proof.
  apply (duplicate_registration_conflicts_before_upload Fixture.collab
           Fixture.registerBobAgain Fixture.loggedIn (Fixture.bob "T1")).
  - intros s Hin. simpl in Hin.
    destruct Hin as [[= <-] | [[= <-] | [[= <-] | [[= <-] | []]]]];
      vm_compute; discriminate.
  - apply list_elem_of_here.
  - right. exists "bob@x.io". split; [reflexivity | vm_compute; reflexivity].
Defined.

(** C5 as stated fails: Bob's email already belongs to a user, yet a
    registration that presents it with a blank full name is answered with the
    client-input error 400 of the blank check, not with the conflict 409. *)
Lemma duplicate_with_blank_field_is_not_conflict :
  belongsTo "email" (reg_email Fixture.registerBobAgainBlankName) (Fixture.bob "T1")
  /\ Fixture.bob "T1" ∈ users Fixture.loggedIn
  /\ fst (registerUser Fixture.collab Fixture.registerBobAgainBlankName Fixture.loggedIn)
     = inl (ApiError 400 "All fields are required")
  /\ apiStatus (fst (registerUser Fixture.collab Fixture.registerBobAgainBlankName
                       Fixture.loggedIn)) <> Some 409.
Proof.
  split; [| split; [| split]].
  - exists "bob@x.io". split; [reflexivity | vm_compute; reflexivity].
  - apply list_elem_of_here.
  - vm_compute. reflexivity.
  - vm_compute. discriminate.
Qed.

(** C4, at a concrete request. The body has no [username] at all; the blank
    check lets it through ([undefined?.trim()] is not the empty string). Both
    files are uploaded and the handler then dies on [username.toLowerCase()]
    with a [TypeError], which is not the client-input error 400. No record is
    written. *)
Theorem registration_without_username_is_no_client_error :
  let result := registerUser Fixture.collab Fixture.registerNoUsername Fixture.empty in
  fst result
  = inl (TypeError "Cannot read properties of undefined (reading 'toLowerCase')")
  /\ apiStatus (fst result) <> Some 400
  /\ uploads (snd result) = [Some "/tmp/a.png"; Some "/tmp/c.png"]
  /\ users (snd result) = [].
Proof.
  cbv zeta. split; [| split; [| split]].
  - vm_compute. reflexivity.
  - vm_compute. discriminate.
  - vm_compute. reflexivity.
  - vm_compute. reflexivity.
Qed.

(** C6, at a concrete request. Every field is filled in, nobody has the
    username or the email, an avatar file is supplied and no cover image:
    [req.files] then has no [coverImage] key, [req.files?.coverImage[0]]
    throws a [TypeError], and the registration fails before any upload and
    without creating the user. *)
Theorem registration_without_cover_image_fails :
  registerUser Fixture.collab (Fixture.registerAnn Fixture.avatarOnly) Fixture.empty
  = (inl (TypeError "Cannot read properties of undefined (reading '0')"),
     Fixture.empty).
Proof. vm_compute. reflexivity. Qed.

(** *** What a successful registration writes *)

Lemma freshId_above (us : list Doc) (d : Doc) : d ∈ us -> oidOf d < freshId us.
Proof.
  unfold freshId. induction 1 as [d us | d d' us _ IH]; simpl; lia.
Qed.

Lemma byId_oidOf (n : nat) (d : Doc) : byId (Some (VOid n)) d = true -> oidOf d = n.
Proof.
  unfold byId, fieldIs, oidOf. destruct (d !! "_id") as [[| m | | | | |] |]; simpl;
    try discriminate.
  intros Heq. apply Nat.eqb_eq in Heq. exact Heq.
Qed.

Lemma find_appended (n : nat) (us : list Doc) (d : Doc) :
  d !! "_id" = Some (VOid n) ->
  (forall x, x ∈ us -> byId (Some (VOid n)) x = false) ->
  find (byId (Some (VOid n))) (us ++ [d])%list = Some d.
Proof.
  intros Hid. induction us as [| x us IH]; intros Hold; cbn [app find].
  - unfold byId, fieldIs. rewrite Hid. simpl. rewrite Nat.eqb_refl. reflexivity.
  - rewrite (Hold x) by left. apply IH. intros y Hy. apply Hold. right. exact Hy.
Qed.

(** The record just created is the one its [_id] finds. *)
Lemma find_created (us : list Doc) (d : Doc) :
  d !! "_id" = Some (VOid (freshId us)) ->
  find (byId (d !! "_id")) (us ++ [d])%list = Some d.
Proof.
  intros Hid. rewrite Hid. apply find_appended; [exact Hid |].
  intros x Hx. apply not_true_is_false. intros Hb.
  apply byId_oidOf in Hb. pose proof (freshId_above us x Hx). lia.
Qed.

Section RegistrationOutcome.

Variable C : Collab.

Lemma castToSchema_undeclared (obj : list (string * option Value)) (key : string) :
  ~ In key (map fst obj) -> castToSchema C obj !! key = None.
Proof.
  induction obj as [| [k v] obj IH]; intros Hnot; simpl.
  - apply lookup_empty.
  - assert (Hk : k <> key) by (intros ->; apply Hnot; left; reflexivity).
    assert (Hrest : castToSchema C obj !! key = None)
      by (apply IH; intros Hin; apply Hnot; right; exact Hin).
    destruct v as [v |]; [| exact Hrest].
    destruct (schemaPath C k); [| exact Hrest].
    rewrite lookup_insert_ne by exact Hk. exact Hrest.
Qed.

Lemma create_inr (obj : list (string * option Value)) (w w' : World) (d : Doc) :
  create C obj w = (inr d, w') ->
  w' = setUsers (users w ++ [d]) w
  /\ d !! "_id" = Some (VOid (freshId (users w)))
  /\ (forall key, key <> "_id" -> d !! key = castToSchema C obj !! key).
Proof.
  unfold create. intros [= <- <-]. split; [reflexivity |]. split.
  - apply lookup_insert_eq.
  - intros key Hkey. apply lookup_insert_ne. congruence.
Qed.

(** Whenever [registerUser] replies, it has appended exactly one record to
    the users, and that record has no [username] field, whatever paths the
    schema declares: the record is created under the key [userName]. *)
Lemma registerUser_created (req : RegisterReq) (w w' : World) (reply : Reply) :
  registerUser C req w = (inr reply, w') ->
  exists d, users w' = (users w ++ [d])%list /\ d !! "username" = None.
Proof.
  unfold registerUser. intros H.
  apply bind_inr in H as (? & w1 & H1 & H). apply throwIf_inr in H1 as [_ ->].
  apply bind_inr in H as (existing & w1 & H1 & H).
  unfold await in H1. injection H1 as _ <-.
  apply bind_inr in H as (? & w1 & H1 & H). apply throwIf_inr in H1 as [_ ->].
  apply bind_inr in H as (avatarPath & w1 & H1 & H). apply liftE_inr in H1 as [_ ->].
  apply bind_inr in H as (coverPath & w1 & H1 & H). apply liftE_inr in H1 as [_ ->].
  apply bind_inr in H as (? & w1 & H1 & H). apply throwIf_inr in H1 as [_ ->].
  apply bind_inr in H as (av & w1 & H1 & H). unfold upload in H1. injection H1 as _ <-.
  apply bind_inr in H as (cov & w1 & H1 & H). unfold upload in H1. injection H1 as _ <-.
  apply bind_inr in H as (? & w1 & H1 & H). apply throwIf_inr in H1 as [_ ->].
  apply bind_inr in H as (userName & w1 & H1 & H). apply liftE_inr in H1 as [_ ->].
  apply bind_inr in H as (lowEmail & w1 & H1 & H). apply liftE_inr in H1 as [_ ->].
  apply bind_inr in H as (user & w1 & H1 & H).
  apply create_inr in H1 as (-> & _ & Hkeys).
  apply bind_inr in H as (created & w1 & H1 & H). unfold await in H1.
  injection H1 as _ <-.
  destruct (selectSafe <$> created); [| discriminate].
  injection H as _ <-.
  exists user. split; [reflexivity |].
  rewrite Hkeys by discriminate.
  apply castToSchema_undeclared. simpl. intros Hin.
  repeat (destruct Hin as [Hin | Hin]; [discriminate |]). exact Hin.
Qed.

(** So the profile of a user whose registration has just succeeded is not
    found, unless some other record already answered to that username. *)
Lemma registerUser_then_profile (req : RegisterReq) (w w' : World) (reply : Reply)
    (username : string) (caller : option Doc) :
  reg_username req = Some username ->
  registerUser C req w = (inr reply, w') ->
  (forall u, u ∈ users w ->
             fieldIs "username" (VStr (Js.toLowerCase username)) u = false) ->
  getUserChannelProfile (mkProfileReq (Some username) caller) w'
  = (inl (ApiError 404 "channel does not exists"), w').
Proof.
  intros Hname Hreg Hnone.
  assert (Hnonblank : Js.truthy (Some (Js.trim username)) = true).
  { unfold registerUser in Hreg.
    apply bind_inr in Hreg as (? & w1 & H1 & _). apply throwIf_inr in H1 as [Hex _].
    apply truthy_Some. intros Hblank.
    rewrite Hname in Hex. simpl in Hex. rewrite Hblank in Hex. simpl in Hex.
    rewrite orb_true_r in Hex. discriminate. }
  destruct (registerUser_created req w w' reply Hreg) as (d & Husers & Hd).
  unfold getUserChannelProfile. cbn [paramUsername].
  unfold bind at 1, throwIf. rewrite Hnonblank. cbn [negb]. unfold ret at 1.
  unfold bind at 1, aggregate, channelPipeline.
  cbn [runPipeline runStage]. rewrite Husers, List.filter_app.
  rewrite (filter_none _ _ Hnone). cbn [List.filter app].
  unfold fieldIs at 1. rewrite Hd. reflexivity.
Qed.

Lemma castToSchema_cons_ne (k : string) (v : option Value)
    (obj : list (string * option Value)) (key : string) :
  k <> key -> castToSchema C ((k, v) :: obj) !! key = castToSchema C obj !! key.
Proof.
  intros Hk. cbn [castToSchema fold_right fst snd].
  destruct v as [v |]; [| reflexivity].
  destruct (schemaPath C k); [| reflexivity].
  apply lookup_insert_ne. exact Hk.
Qed.

Lemma castToSchema_cons_eq (k : string) (v : Value) (obj : list (string * option Value)) :
  schemaPath C k = true ->
  castToSchema C ((k, Some v) :: obj) !! k = Some (preSave C k v).
Proof.
  intros Hk. cbn [castToSchema fold_right fst snd]. rewrite Hk.
  apply lookup_insert_eq.
Qed.

(** With files in the request but none for the cover image, a registration
    that passed the two checks before dies on [req.files?.coverImage[0]]:
    nothing is uploaded, nothing is written. *)
Lemma registerUser_without_cover_key
    (req : RegisterReq) (w : World) (files : Files) (avatars : list File) :
  noBlankField req ->
  await C (FindOne [("username", reg_username req); ("email", reg_email req)]) w
  = (inr None, w) ->
  reg_files req = Some files ->
  avatar files = Some avatars ->
  coverImage files = None ->
  registerUser C req w
  = (inl (TypeError "Cannot read properties of undefined (reading '0')"), w).
Proof.
  intros Hno Hfree Hfiles Havatar Hcover.
  unfold registerUser.
  unfold bind at 1. rewrite (noBlankField_check req Hno).
  unfold throwIf at 1, ret at 1.
  unfold bind at 1. rewrite Hfree.
  unfold bind at 1. cbn [isSome throwIf]. unfold ret at 1.
  rewrite Hfiles. unfold bind at 1, liftE at 1, firstPath at 1. rewrite Havatar.
  unfold bind at 1, liftE at 1, firstPath at 1. rewrite Hcover.
  destruct avatars; reflexivity.
Qed.

(** The part of the cover image's optionality that the code has. When the
    [coverImage] key of [req.files] is there (its list may be empty) and the
    upload of the cover image gives nothing, a registration that is otherwise
    in order still succeeds, and the record stores the empty string as its
    cover image (if the schema declares that path). *)
Lemma registerUser_tolerates_failed_cover_upload
    (req : RegisterReq) (w : World) (files : Files)
    (username email avatarPath : string)
    (avatarFile : File) (moreAvatars covers : list File) (asset : Asset) :
  noBlankField req ->
  reg_username req = Some username ->
  reg_email req = Some email ->
  await C (FindOne [("username", Some username); ("email", Some email)]) w
  = (inr None, w) ->
  reg_files req = Some files ->
  avatar files = Some (avatarFile :: moreAvatars) ->
  path avatarFile = Some avatarPath ->
  avatarPath <> "" ->
  coverImage files = Some covers ->
  uploadAssetsOnCloudinary C (Some avatarPath) = Some asset ->
  uploadAssetsOnCloudinary C (head covers ≫= path) = None ->
  schemaPath C "coverImage" = true ->
  exists d w',
    registerUser C req w
    = (inr (respond 201 [] []
              (mkApiResponse 200 (DataDoc (selectSafe d)) "User created successfully")),
       w')
    /\ users w' = (users w ++ [d])%list
    /\ uploads w' = (uploads w ++ [Some avatarPath; head covers ≫= path])%list
    /\ d !! "coverImage" = Some (VStr "").
Proof.
  intros Hno Huser Hemail Hfree Hfiles Havatar Hpath Hnonempty Hcover Haup Hcup Hschema.
  assert (HcoverPath : firstPath (Some files) coverImage = inr (head covers ≫= path)).
  { unfold firstPath. rewrite Hcover. destruct covers; reflexivity. }
  unfold registerUser.
  unfold bind at 1. rewrite (noBlankField_check req Hno).
  unfold throwIf at 1, ret at 1.
  rewrite Huser, Hemail. unfold bind at 1. rewrite Hfree.
  unfold bind at 1. cbn [isSome throwIf]. unfold ret at 1.
  rewrite Hfiles. unfold bind at 1, liftE at 1, firstPath at 1.
  rewrite Havatar, Hpath.
  unfold bind at 1, liftE at 1. rewrite HcoverPath.
  unfold bind at 1. apply truthy_Some in Hnonempty. rewrite Hnonempty.
  cbn [negb throwIf]. unfold ret at 1.
  unfold bind at 1, upload at 1. rewrite Haup.
  unfold bind at 1, upload at 1. rewrite Hcup.
  unfold bind at 1. cbn [isSome negb throwIf]. unfold ret at 1.
  unfold bind at 1, liftE at 1. cbn [toLowerCaseOf].
  unfold bind at 1, liftE at 1.
  unfold bind at 1.
  set (w2 := logUpload _ (logUpload _ w)).
  destruct (create C _ w2) as [[e | d] w3] eqn:Hcreate; [discriminate Hcreate |].
  apply create_inr in Hcreate as (-> & Hid & Hkeys).
  unfold bind at 1, await at 1. cbn [users setUsers].
  assert (Hfresh : freshId (users w2) = freshId (users w)) by reflexivity.
  rewrite (find_created (users w2) d) by exact Hid.
  exists d. eexists. split; [reflexivity |].
  split; [reflexivity |]. split.
  - cbn [uploads setUsers w2 logUpload]. rewrite <- app_assoc. reflexivity.
  - rewrite Hkeys by discriminate.
    rewrite !castToSchema_cons_ne by discriminate.
    change (VStr <$> Js.or (url <$> None) (Some "")) with (Some (VStr "")).
    rewrite castToSchema_cons_eq by exact Hschema. reflexivity.
Qed.

End RegistrationOutcome.

Example registration_with_empty_cover_list :
  exists d w',
    registerUser Fixture.collab (Fixture.registerAnn (Some Fixture.emptyCoverList))
      Fixture.empty
    = (inr (respond 201 [] []
              (mkApiResponse 200 (DataDoc (selectSafe d)) "User created successfully")),
       w')
    /\ users w' = [d]
    /\ uploads w' = [Some "/tmp/a.png"; None]
    /\ d !! "coverImage" = Some (VStr "").
Proof.
  apply (registerUser_tolerates_failed_cover_upload Fixture.collab
           (Fixture.registerAnn (Some Fixture.emptyCoverList)) Fixture.empty
           Fixture.emptyCoverList "Ann" "Ann@x.io" "/tmp/a.png"
           (mkFile (Some "/tmp/a.png")) [] [] (mkAsset "https://cdn/tmp/a.png"));
    try reflexivity.
  - intros s Hin. simpl in Hin.
    destruct Hin as [[= <-] | [[= <-] | [[= <-] | [[= <-] | []]]]];
      vm_compute; discriminate.
  - discriminate.
Qed.

(** C7, at a concrete request. Ann registers in an empty store and gets 201;
    the record was created under the key [userName], the profile query
    matches on the key [username], and so the profile of the user just
    created is answered with not-found. *)
Theorem profile_of_registered_user_is_not_found :
  let created := registerUser Fixture.collab (Fixture.registerAnn Fixture.twoFiles)
                   Fixture.empty in
  (exists r, fst created = inr (Sent r) /\ status r = 201)
  /\ (exists d, users (snd created) = [d]
                /\ d !! "userName" = Some (VStr "ann")
                /\ d !! "username" = None)
  /\ fst (getUserChannelProfile (mkProfileReq (Some "Ann") None) (snd created))
     = inl (ApiError 404 "channel does not exists").
Proof.
  cbv zeta. split; [| split].
  - eexists. split; [vm_compute; reflexivity | reflexivity].
  - eexists. split; [vm_compute; reflexivity |].
    split; vm_compute; reflexivity.
  - vm_compute. reflexivity.
Qed.

(** ** Logout *)

(** [logoutUser] never touches the world: the update it builds is never
    sent to the store. *)
Lemma logoutUser_world (user : option Doc) (w : World) :
  snd (logoutUser user w) = w.
Proof. destruct user; reflexivity. Qed.

Lemma logoutUser_reply (user : Doc) (w : World) :
  fst (logoutUser (Some user) w)
  = inr (respond 200 [] ["accessToken"; "refreshToken"]
           (mkApiResponse 200 DataEmpty "User logged out successfully")).
Proof. reflexivity. Qed.

(** C9, at a concrete session. Bob is logged in with refresh token T1 and
    logs out twice. Neither call raises an error (both reply 200), but the
    refresh token is still stored after the first call and after the second:
    the update query of lines 179-189 is built and never executed. *)
Theorem logout_leaves_refresh_token_stored :
  let caller := Some (selectSafe (Fixture.bob "T1")) in
  let once := logoutUser caller Fixture.loggedIn in
  let twice := logoutUser caller (settle Fixture.collab (snd once)) in
  (exists r, fst once = inr (Sent r) /\ status r = 200)
  /\ (exists r, fst twice = inr (Sent r) /\ status r = 200)
  /\ storedRefreshToken (settle Fixture.collab (snd once)) (VOid 7) = Some (VStr "T1")
  /\ storedRefreshToken (settle Fixture.collab (snd twice)) (VOid 7) = Some (VStr "T1").
Proof.
  cbv zeta. split; [| split; [| split]].
  - eexists. split; [vm_compute; reflexivity | reflexivity].
  - eexists. split; [vm_compute; reflexivity | reflexivity].
  - vm_compute. reflexivity.
  - vm_compute. reflexivity.
Qed.

(** ** Password change *)

Lemma samePublicFields_refl (d : Doc) : samePublicFields d d.
Proof. intros key _. reflexivity. Qed.

Lemma updateFirst_samePublicFields (p : Doc -> bool) (f : Doc -> Doc) (us us' : list Doc) :
  (forall d, samePublicFields d (f d)) ->
  updateFirst p f us = Some us' ->
  Forall2 samePublicFields us us'.
Proof.
  intros Hf. revert us'. induction us as [| d us IH]; intros us'; simpl.
  - discriminate.
  - destruct (p d).
    + intros [= <-]. constructor; [apply Hf |].
      apply Forall2_same_length_lookup_2; [reflexivity |].
      intros i x y Hx Hy. rewrite Hx in Hy. injection Hy as <-.
      apply samePublicFields_refl.
    + destruct (updateFirst p f us) as [us1 |]; simpl; [| discriminate].
      intros [= <-]. constructor; [apply samePublicFields_refl | auto].
Qed.

Lemma Forall2_samePublicFields_refl (us : list Doc) : Forall2 samePublicFields us us.
Proof. induction us; constructor; auto using samePublicFields_refl. Qed.

Lemma byId_samePublicFields (id : option Value) (d d' : Doc) :
  samePublicFields d d' -> byId id d' = byId id d.
Proof.
  intros Hsame. unfold byId, fieldIs. destruct id; [| reflexivity].
  rewrite (Hsame "_id"); [reflexivity | discriminate].
Qed.

Lemma find_byId_samePublicFields (id : option Value) (us us' : list Doc) :
  Forall2 samePublicFields us us' ->
  option_Forall2 samePublicFields (find (byId id) us) (find (byId id) us').
Proof.
  induction 1 as [| d d' us us' Hd _ IH]; simpl.
  - constructor.
  - rewrite (byId_samePublicFields id d d' Hd).
    destruct (byId id d); [constructor; exact Hd | exact IH].
Qed.

Section PasswordProperties.

Variable C : Collab.

Lemma writePath_password (user stored : Doc) :
  samePublicFields stored (writePath C user "password" stored).
Proof.
  intros key Hkey. unfold writePath.
  destruct (user !! "password").
  - apply lookup_insert_ne. congruence.
  - apply lookup_delete_ne. congruence.
Qed.

(** Saving a document whose only modified path is the password. *)
Lemma save_password (user : Doc) (w : World) :
  let w' := snd (save C user ["password"] w) in
  Forall2 samePublicFields (users w) (users w')
  /\ now w' = now w /\ subscriptions w' = subscriptions w.
Proof.
  unfold save.
  destruct (updateFirst _ _ (users w)) as [us |] eqn:Hup; simpl.
  - split; [| split; reflexivity].
    apply (updateFirst_samePublicFields _ _ _ _ (writePath_password user) Hup).
  - split; [apply Forall2_samePublicFields_refl | split; reflexivity].
Qed.

(** What a successful [changePassword] leaves behind: the world as it was,
    plus one pending save of the password. *)
Lemma changePassword_success (req : ChangePasswordReq) (w w' : World) (r : Response) :
  changePassword C req w = (inr (Sent r), w') ->
  exists user, w' = enqueue (TaskSave user ["password"]) w.
Proof.
  unfold changePassword, bind at 1. unfold throwIf at 1.
  destruct (negb (Js.truthy (oldPassword req)) || negb (Js.truthy (newPassword req)));
    simpl; [discriminate |].
  unfold bind at 1, await.
  destruct (find (byId (cp_user req ≫= (.!! "_id"))) (users w)) as [user |];
    [| discriminate].
  unfold bind at 1, throwIf.
  destruct (negb (isPasswordCorrect C user (oldPassword req))); simpl; [discriminate |].
  intros [= _ <-]. eauto.
Qed.

(** C10. Let [changePassword] succeed in a world with no work pending.
    Nothing is written before the reply; once the save it started has been
    carried out, every record has exactly the fields it had, except
    possibly [password]. In particular every stored refresh token is
    unchanged, and a refresh token that was accepted before the password
    change is accepted after it. *)
Theorem changePassword_changes_only_password
    (req : ChangePasswordReq) (w w' : World) (r : Response) :
  pending w = [] ->
  changePassword C req w = (inr (Sent r), w') ->
  users w' = users w
  /\ Forall2 samePublicFields (users w) (users (settle C w'))
  /\ (forall id, storedRefreshToken (settle C w') id = storedRefreshToken w id)
  /\ (forall token, sessionValid C (settle C w') token = sessionValid C w token).
Proof.
  intros Hquiet Hok.
  destruct (changePassword_success req w w' r Hok) as [user ->].
  split; [reflexivity |].
  assert (Hsettle : settle C (enqueue (TaskSave user ["password"]) w)
                    = snd (save C user ["password"] w)).
  { unfold settle, enqueue. simpl. rewrite Hquiet. simpl.
    unfold clearPending. simpl. rewrite <- Hquiet. destruct w; reflexivity. }
  rewrite Hsettle.
  destruct (save_password user w) as (Hsame & Hnow & _).
  split; [exact Hsame |]. split.
  - intros id. unfold storedRefreshToken.
    destruct (find_byId_samePublicFields (Some id) _ _ Hsame) as [d d' Hd |];
      [| reflexivity].
    simpl. apply Hd. discriminate.
  - intros token. unfold sessionValid. rewrite Hnow.
    destruct (jwtVerify C (now w) token) as [msg | decoded]; [reflexivity |].
    destruct (find_byId_samePublicFields (decoded !! "_id") _ _ Hsame) as [d d' Hd |];
      [| reflexivity].
    rewrite (Hd "refreshToken"); [reflexivity | discriminate].
Qed.

End PasswordProperties.

Lemma changePassword_changes_only_password_witness :
  Forall2 samePublicFields
    (users Fixture.loggedIn)
    (users (settle Fixture.collab
              (snd (changePassword Fixture.collab Fixture.bobChangesPassword
                      Fixture.loggedIn)))).
Proof.
  eapply (changePassword_changes_only_password Fixture.collab
            Fixture.bobChangesPassword Fixture.loggedIn).
  - reflexivity.
  - vm_compute. reflexivity.
Defined.

(** ** Channel profile *)

Lemma value_eqb_VStr (x : Value) (s : string) :
  value_eqb x (VStr s) = true -> x = VStr s.
Proof.
  destruct x; simpl; try discriminate.
  intros Heq. apply String.eqb_eq in Heq. congruence.
Qed.

(** If [u] is in the list and is the only element that passes [p], the
    filter keeps copies of [u] only, and at least one. *)
Lemma filter_same {A} (p : A -> bool) (l : list A) (u : A) :
  (forall x, x ∈ l -> p x = true -> x = u) ->
  List.filter p l = replicate (length (List.filter p l)) u.
Proof.
  induction l as [| y l IH]; intros Honly; simpl; [reflexivity |].
  assert (Htail : forall x, x ∈ l -> p x = true -> x = u).
  { intros x Hx. apply Honly. right. exact Hx. }
  destruct (p y) eqn:Hy; simpl.
  - rewrite (Honly y); [| left | exact Hy]. f_equal. auto.
  - auto.
Qed.

Lemma filter_only {A} (p : A -> bool) (l : list A) (u : A) :
  u ∈ l -> p u = true ->
  (forall x, x ∈ l -> p x = true -> x = u) ->
  exists n, List.filter p l = replicate (S n) u.
Proof.
  intros Hin Hp Honly.
  assert (Hmem : In u (List.filter p l)).
  { apply filter_In. split; [apply list_elem_of_In; exact Hin | exact Hp]. }
  rewrite (filter_same p l u Honly) in Hmem |- *.
  destruct (length (List.filter p l)) as [| n]; [destruct Hmem |].
  exists n. reflexivity.
Qed.


Lemma map_replicate {A B} (f : A -> B) (n : nat) (x : A) :
  map f (replicate n x) = replicate n (f x).
Proof. induction n; simpl; congruence. Qed.

Lemma mapE_replicate {A B} (f : A -> Exn + B) (n : nat) (x : A) (y : B) :
  f x = inr y -> mapE f (replicate n x) = inr (replicate n y).
Proof.
  intros Hf. induction n as [| n IH]; simpl; [reflexivity |].
  rewrite Hf, IH. reflexivity.
Qed.

(** C8. Let the username of the request be non-blank and let [u] be the
    user record whose stored [username] is its lower-case form (the only
    such record: usernames are unique). If no subscription joins [u] as
    channel and none joins [u] as subscriber, then for an anonymous caller
    [getUserChannelProfile] replies 200 with a row in which
    [subscribersCount] is 0, [channelsSubscribedToCount] is 0 and
    [isSubscribed] is false. *)
Theorem profile_without_edges_counts_zero
    (w : World) (username : string) (u : Doc) :
  Js.trim username <> "" ->
  u ∈ users w ->
  u !! "username" = Some (VStr (Js.toLowerCase username)) ->
  (forall u', u' ∈ users w -> u' !! "username" = u !! "username" -> u' = u) ->
  (forall s, s ∈ subscriptions w -> joins (u !! "_id") (s !! "channel") = false) ->
  (forall s, s ∈ subscriptions w -> joins (u !! "_id") (s !! "subscriber") = false) ->
  exists row,
    getUserChannelProfile (mkProfileReq (Some username) None) w
    = (inr (respond 200 [] []
              (mkApiResponse 200 (DataDoc row) "User channel fetched successfully")),
       w)
    /\ row !! "subscribersCount" = Some (VNum 0)
    /\ row !! "channelsSubscribedToCount" = Some (VNum 0)
    /\ row !! "isSubscribed" = Some (VBool false).
Proof.
  intros Hname Hin Huser Hunique Hchannel Hsubscriber.
  assert (Hmatch : exists n,
             List.filter (fieldIs "username" (VStr (Js.toLowerCase username))) (users w)
             = replicate (S n) u).
  { apply filter_only; [exact Hin | |].
    - unfold fieldIs. rewrite Huser. apply value_eqb_VStr_refl.
    - intros u' Hin' Hp. apply Hunique; [exact Hin' |].
      unfold fieldIs in Hp. rewrite Huser.
      destruct (u' !! "username") as [x |]; [| discriminate].
      apply value_eqb_VStr in Hp. congruence. }
  destruct Hmatch as [n Hmatch].
  unfold getUserChannelProfile. cbn [paramUsername caller].
  unfold bind at 1, throwIf. apply truthy_Some in Hname. rewrite Hname. cbn [negb].
  unfold ret at 1. unfold bind at 1, aggregate, channelPipeline.
  cbn [runPipeline runStage collection String.eqb Ascii.eqb Bool.eqb].
  rewrite Hmatch, !map_replicate.
  rewrite (filter_none _ _ Hchannel). cbn [map].
  rewrite filter_none; cycle 1.
  { intros s Hs. rewrite lookup_insert_ne by discriminate. auto. }
  cbn [map].
  erewrite mapE_replicate; cycle 1.
  { cbn [addFields evalExpr].
    rewrite lookup_insert_eq.
    rewrite lookup_insert_ne by discriminate. rewrite lookup_insert_eq.
    reflexivity. }
  rewrite map_replicate. cbn [replicate].
  eexists. split; [reflexivity |].
  split; [| split]; apply map_lookup_filter_Some; (split; [| set_solver]).
  - rewrite lookup_insert_ne by discriminate.
    rewrite lookup_insert_ne by discriminate. apply lookup_insert_eq.
  - rewrite lookup_insert_ne by discriminate. apply lookup_insert_eq.
  - apply lookup_insert_eq.
Qed.

Lemma profile_without_edges_counts_zero_witness :
  exists row,
    getUserChannelProfile (mkProfileReq (Some "BOB") None) Fixture.loggedIn
    = (inr (respond 200 [] []
              (mkApiResponse 200 (DataDoc row) "User channel fetched successfully")),
       Fixture.loggedIn)
    /\ row !! "subscribersCount" = Some (VNum 0)
    /\ row !! "channelsSubscribedToCount" = Some (VNum 0)
    /\ row !! "isSubscribed" = Some (VBool false).
Proof.
  apply (profile_without_edges_counts_zero Fixture.loggedIn "BOB" (Fixture.bob "T1")).
  - vm_compute. discriminate.
  - apply list_elem_of_here.
  - vm_compute. reflexivity.
  - intros u' Hin _. apply list_elem_of_singleton in Hin. exact Hin.
  - intros s Hin. apply list_elem_of_singleton in Hin. subst s.
    vm_compute. reflexivity.
  - intros s Hin. apply list_elem_of_singleton in Hin. subst s.
    vm_compute. reflexivity.
Defined.

(** * Further properties of the controller *)

(** ** Equality of values, lookups by identifier *)

Lemma value_eqb_eq : forall a b : Value, value_eqb a b = true -> a = b.
Proof.
  fix IH 1. intros a b. destruct a as [s | n | n | x | | l | l], b as [t | m | m | y | | r | r];
    simpl; try discriminate.
  - intros H. apply String.eqb_eq in H. congruence.
  - intros H. apply Nat.eqb_eq in H. congruence.
  - intros H. apply Nat.eqb_eq in H. congruence.
  - intros H. apply Bool.eqb_prop in H. congruence.
  - reflexivity.
  - intros H. f_equal. revert r H.
    induction l as [| x l IHl]; intros [| y r]; try discriminate; [reflexivity |].
    intros H. apply andb_true_iff in H as [Hx Hl].
    f_equal; [apply IH; exact Hx | apply IHl; exact Hl].
  - intros H. f_equal. revert r H.
    induction l as [| [k x] l IHl]; intros [| [k' y] r]; try discriminate;
      [reflexivity |].
    intros H. apply andb_true_iff in H as [Hkx Hl].
    apply andb_true_iff in Hkx as [Hk Hx]. apply String.eqb_eq in Hk.
    f_equal; [f_equal; [exact Hk | apply IH; exact Hx] | apply IHl; exact Hl].
Qed.

Lemma value_eqb_refl : forall a : Value, value_eqb a a = true.
Proof.
  fix IH 1. intros [s | n | n | x | | l | l]; simpl.
  - apply String.eqb_refl.
  - apply Nat.eqb_refl.
  - apply Nat.eqb_refl.
  - destruct x; reflexivity.
  - reflexivity.
  - induction l as [| x l IHl]; [reflexivity |].
    rewrite (IH x). exact IHl.
  - induction l as [| [k x] l IHl]; [reflexivity |].
    rewrite String.eqb_refl, (IH x). exact IHl.
Qed.

Lemma fieldIs_true (key : string) (v : Value) (d : Doc) :
  fieldIs key v d = true <-> d !! key = Some v.
Proof.
  unfold fieldIs. split.
  - destruct (d !! key) as [x |]; [| discriminate].
    intros H. apply value_eqb_eq in H. congruence.
  - intros ->. apply value_eqb_refl.
Qed.

Lemma byId_true (id : option Value) (d : Doc) :
  byId id d = true <-> exists v, id = Some v /\ d !! "_id" = Some v.
Proof.
  unfold byId. destruct id as [v |].
  - rewrite fieldIs_true. split; [eauto |]. intros (v' & [= <-] & H). exact H.
  - split; [discriminate |]. intros (v & [=] & _).
Qed.

(** A record found by its identifier carries that identifier. *)
Lemma find_byId_Some (id : option Value) (us : list Doc) (d : Doc) :
  find (byId id) us = Some d ->
  exists v, id = Some v /\ d !! "_id" = Some v /\ d ∈ us.
Proof.
  intros Hfind. apply find_some in Hfind as [Hin Hb].
  apply byId_true in Hb as (v & -> & Hid).
  exists v. split; [reflexivity |]. split; [exact Hid |].
  apply list_elem_of_In. exact Hin.
Qed.

(** ** Updating the first record that matches *)

Lemma updateFirst_Some (p : Doc -> bool) (f : Doc -> Doc) (us : list Doc) (d : Doc) :
  find p us = Some d ->
  p (f d) = true ->
  exists us',
    updateFirst p f us = Some us' /\ find p us' = Some (f d).
Proof.
  intros Hfind Hkeep. induction us as [| x us IH]; simpl in *; [discriminate |].
  destruct (p x) eqn:Hx.
  - injection Hfind as ->. eexists. split; [reflexivity |].
    simpl. rewrite Hkeep. reflexivity.
  - destruct (IH Hfind) as (us' & -> & Hfound). eexists. split; [reflexivity |].
    simpl. rewrite Hx. exact Hfound.
Qed.

Lemma updateFirst_None (p : Doc -> bool) (f : Doc -> Doc) (us : list Doc) :
  find p us = None -> updateFirst p f us = None.
Proof.
  induction us as [| x us IH]; simpl; [reflexivity |].
  destruct (p x); [discriminate |]. intros H. rewrite (IH H). reflexivity.
Qed.

Lemma updateFirst_is_Some (p : Doc -> bool) (f : Doc -> Doc) (us us' : list Doc) :
  updateFirst p f us = Some us' -> exists d, find p us = Some d.
Proof.
  destruct (find p us) as [d |] eqn:Hfind; [eauto |].
  rewrite (updateFirst_None p f us Hfind). discriminate.
Qed.

Lemma sameExcept_refl (keys : list string) (d : Doc) : sameExcept keys d d.
Proof. intros key _. reflexivity. Qed.

Lemma Forall2_sameExcept_refl (keys : list string) (us : list Doc) :
  Forall2 (sameExcept keys) us us.
Proof. induction us; constructor; auto using sameExcept_refl. Qed.

Lemma updateFirst_sameExcept (keys : list string) (p : Doc -> bool) (f : Doc -> Doc)
    (us us' : list Doc) :
  (forall d, sameExcept keys d (f d)) ->
  updateFirst p f us = Some us' ->
  Forall2 (sameExcept keys) us us'.
Proof.
  intros Hf. revert us'. induction us as [| d us IH]; intros us'; simpl.
  - discriminate.
  - destruct (p d).
    + intros [= <-]. constructor; [apply Hf | apply Forall2_sameExcept_refl].
    + destruct (updateFirst p f us) as [us1 |]; simpl; [| discriminate].
      intros [= <-]. constructor; [apply sameExcept_refl | auto].
Qed.

Lemma insert_sameExcept (key : string) (v : Value) (d : Doc) :
  sameExcept [key] d (<[key := v]> d).
Proof.
  intros k Hk. apply lookup_insert_ne. intros ->. apply Hk. left. reflexivity.
Qed.

Lemma sameExcept_weaken (keys keys' : list string) (d d' : Doc) :
  (forall k, In k keys -> In k keys') ->
  sameExcept keys d d' -> sameExcept keys' d d'.
Proof. intros Hsub Hsame key Hkey. apply Hsame. auto. Qed.

(** Inversion of [bind] on a failure: the first action failed, or it
    returned and the rest failed. *)
Lemma bind_inl {A B} (m : M A) (k : A -> M B) (w w' : World) (e : Exn) :
  bind m k w = (inl e, w') ->
  m w = (inl e, w') \/ exists a w1, m w = (inr a, w1) /\ k a w1 = (inl e, w').
Proof.
  unfold bind. destruct (m w) as [[e1 | a] w1].
  - intros [= -> ->]. left. reflexivity.
  - intros Hk. right. eauto.
Qed.

(** ** Issuing a pair of tokens *)

Section TokenIssuance.

Variable C : Collab.

Lemma writePath_sameExcept (user : Doc) (key : string) (stored : Doc) :
  sameExcept [key] stored (writePath C user key stored).
Proof.
  intros k Hk. assert (key <> k) by (intros ->; apply Hk; left; reflexivity).
  unfold writePath. destruct (user !! key).
  - apply lookup_insert_ne. assumption.
  - apply lookup_delete_ne. assumption.
Qed.


(** Saving one modified path of a loaded document whose record is still in
    the store: the record gets that path, every record keeps the others. *)
Lemma save_one_path (user stored : Doc) (key : string) (id : Value) (w : World) :
  key <> "_id" ->
  user !! "_id" = Some id ->
  find (byId (Some id)) (users w) = Some stored ->
  exists us',
    save C user [key] w = (inr tt, setUsers us' w)
    /\ find (byId (Some id)) us' = Some (writePath C user key stored)
    /\ Forall2 (sameExcept [key]) (users w) us'.
Proof.
  intros Hkey Hid Hfind. unfold save. rewrite Hid.
  set (f := fun st : Doc => fold_right (writePath C user) st [key]).
  assert (Hf : forall st, f st = writePath C user key st) by reflexivity.
  destruct (updateFirst_Some (byId (Some id)) f (users w) stored Hfind)
    as (us' & Hup & Hfound).
  { apply byId_true. exists id. split; [reflexivity |].
    rewrite Hf, (writePath_sameExcept user key stored "_id").
    - apply find_byId_Some in Hfind as (v & [= <-] & Hv & _). exact Hv.
    - intros [-> | []]. congruence. }
  exists us'. rewrite Hup. split; [reflexivity |]. split.
  - rewrite Hfound, Hf. reflexivity.
  - apply (updateFirst_sameExcept [key] (byId (Some id)) f (users w) us'); [| exact Hup].
    intros st. rewrite Hf. apply writePath_sameExcept.
Qed.

Lemma generateAccessAndRefreshTokens_found (id : Value) (user : Doc) (w : World) :
  find (byId (Some id)) (users w) = Some user ->
  exists us',
    generateAccessAndRefreshTokens C (Some id) w
    = (inr (generateAccessToken C user (now w), generateRefreshToken C user (now w)),
       setUsers us' w)
    /\ find (byId (Some id)) us'
       = Some (<["refreshToken" := VStr (generateRefreshToken C user (now w))]> user)
    /\ Forall2 (sameExcept ["refreshToken"]) (users w) us'.
Proof.
  intros Hfind.
  pose proof (find_byId_Some _ _ _ Hfind) as (v & [= <-] & Hid & _).
  set (r := generateRefreshToken C user (now w)).
  destruct (save_one_path (<["refreshToken" := VStr r]> user) user "refreshToken" id w)
    as (us' & Hsave & Hfound & Hsame); [discriminate | | exact Hfind |].
  { rewrite lookup_insert_ne by discriminate. exact Hid. }
  exists us'. split; [| split; [| exact Hsame]].
  - unfold generateAccessAndRefreshTokens, tryCatch, bind at 1, await.
    rewrite Hfind. unfold bind at 1, get. unfold bind at 1. fold r.
    rewrite Hsave. reflexivity.
  - rewrite Hfound. unfold writePath. rewrite lookup_insert_eq. reflexivity.
Qed.

Lemma generateAccessAndRefreshTokens_not_found (userId : option Value) (w : World) :
  find (byId userId) (users w) = None ->
  generateAccessAndRefreshTokens C userId w
  = (inl (ApiError 500 "Error generating tokens"), w).
Proof.
  intros Hfind. unfold generateAccessAndRefreshTokens, tryCatch, bind at 1, await.
  rewrite Hfind. reflexivity.
Qed.

(** In the store as it is modelled, the issuance fails only when no record
    has the identifier. *)
Lemma generateAccessAndRefreshTokens_inl
    (userId : option Value) (w w' : World) (e : Exn) :
  generateAccessAndRefreshTokens C userId w = (inl e, w') ->
  e = ApiError 500 "Error generating tokens"
  /\ w' = w
  /\ find (byId userId) (users w) = None.
Proof.
  intros Hfail. destruct (find (byId userId) (users w)) as [user |] eqn:Hfind.
  - pose proof (find_byId_Some _ _ _ Hfind) as (id & -> & _).
    destruct (generateAccessAndRefreshTokens_found id user w Hfind) as (us' & Hok & _).
    congruence.
  - rewrite (generateAccessAndRefreshTokens_not_found userId w Hfind) in Hfail.
    injection Hfail as <- <-. auto.
Qed.

(** X1. Whatever makes [generateAccessAndRefreshTokens] fail, the caller
    sees the server fault 500 "Error generating tokens" (the [catch] block
    replaces every error), and nothing has been written. *)
Theorem issuing_tokens_fails_as_server_fault
    (userId : option Value) (w w' : World) (e : Exn) :
  generateAccessAndRefreshTokens C userId w = (inl e, w') ->
  e = ApiError 500 "Error generating tokens" /\ w' = w.
Proof.
  intros Hfail.
  destruct (generateAccessAndRefreshTokens_inl userId w w' e Hfail) as (He & Hw & _).
  auto.
Qed.

(** X2. When [generateAccessAndRefreshTokens] returns a pair, the two tokens
    are the ones the user's record generates at that time, the refresh
    token of the pair is the one now stored on that record, and no record
    has changed in any other field. *)
Theorem issued_refresh_token_is_stored
    (userId : option Value) (w w' : World) (accessToken refreshToken : string) :
  generateAccessAndRefreshTokens C userId w = (inr (accessToken, refreshToken), w') ->
  exists id user,
    userId = Some id
    /\ find (byId (Some id)) (users w) = Some user
    /\ accessToken = generateAccessToken C user (now w)
    /\ refreshToken = generateRefreshToken C user (now w)
    /\ storedRefreshToken w' id = Some (VStr refreshToken)
    /\ Forall2 (sameExcept ["refreshToken"]) (users w) (users w')
    /\ uploads w' = uploads w /\ pending w' = pending w /\ now w' = now w.
Proof.
  intros Hok. destruct (find (byId userId) (users w)) as [user |] eqn:Hfind.
  - pose proof (find_byId_Some _ _ _ Hfind) as (id & -> & _).
    destruct (generateAccessAndRefreshTokens_found id user w Hfind)
      as (us' & Hgen & Hfound & Hsame).
    rewrite Hgen in Hok. injection Hok as <- <- <-.
    exists id, user. repeat (split; [reflexivity || assumption |]).
    split; [| split; [exact Hsame | repeat split]].
    unfold storedRefreshToken. cbn [users setUsers]. rewrite Hfound. simpl.
    apply lookup_insert_eq.
  - rewrite (generateAccessAndRefreshTokens_not_found userId w Hfind) in Hok.
    discriminate.
Qed.

End TokenIssuance.

Lemma issuing_tokens_fails_as_server_fault_witness :
  generateAccessAndRefreshTokens Fixture.collab (Some (VOid 3)) Fixture.loggedIn
  = (inl (ApiError 500 "Error generating tokens"), Fixture.loggedIn).
Proof.
  destruct (generateAccessAndRefreshTokens Fixture.collab (Some (VOid 3)) Fixture.loggedIn)
    as [[e | tokens] w'] eqn:Hrun.
  - destruct (issuing_tokens_fails_as_server_fault Fixture.collab (Some (VOid 3))
                Fixture.loggedIn w' e Hrun) as [-> ->].
    reflexivity.
  - vm_compute in Hrun. discriminate Hrun.
Defined.

Lemma issued_refresh_token_is_stored_witness :
  exists id user,
    Some (VOid 7) = Some id
    /\ find (byId (Some id)) (users Fixture.loggedIn) = Some user
    /\ "A1" = generateAccessToken Fixture.collab user (now Fixture.loggedIn)
    /\ "T1" = generateRefreshToken Fixture.collab user (now Fixture.loggedIn)
    /\ storedRefreshToken
         (snd (generateAccessAndRefreshTokens Fixture.collab (Some (VOid 7))
                 Fixture.loggedIn)) id = Some (VStr "T1")
    /\ Forall2 (sameExcept ["refreshToken"]) (users Fixture.loggedIn)
         (users (snd (generateAccessAndRefreshTokens Fixture.collab (Some (VOid 7))
                        Fixture.loggedIn)))
    /\ uploads (snd (generateAccessAndRefreshTokens Fixture.collab (Some (VOid 7))
                       Fixture.loggedIn)) = uploads Fixture.loggedIn
    /\ pending (snd (generateAccessAndRefreshTokens Fixture.collab (Some (VOid 7))
                       Fixture.loggedIn)) = pending Fixture.loggedIn
    /\ now (snd (generateAccessAndRefreshTokens Fixture.collab (Some (VOid 7))
                   Fixture.loggedIn)) = now Fixture.loggedIn.
Proof.
  apply (issued_refresh_token_is_stored Fixture.collab (Some (VOid 7)) Fixture.loggedIn).
  vm_compute. reflexivity.
Defined.

(** ** Login *)

Lemma find_None_all {A} (p : A -> bool) (l : list A) :
  (forall x, x ∈ l -> p x = false) -> find p l = None.
Proof.
  induction l as [| y l IH]; intros Hall; simpl; [reflexivity |].
  rewrite (Hall y) by left. apply IH. intros x Hx. apply Hall. right. exact Hx.
Qed.

Lemma selectSafe_hides (d : Doc) :
  selectSafe d !! "password" = None /\ selectSafe d !! "refreshToken" = None.
Proof.
  unfold selectSafe. split.
  - rewrite lookup_delete_ne by discriminate. apply lookup_delete_eq.
  - apply lookup_delete_eq.
Qed.

Lemma selectSafe_keeps (d : Doc) (key : string) :
  key <> "password" -> key <> "refreshToken" -> selectSafe d !! key = d !! key.
Proof.
  intros Hp Hr. unfold selectSafe.
  rewrite lookup_delete_ne by congruence. apply lookup_delete_ne. congruence.
Qed.

Section LoginProperties.

Variable C : Collab.

(** X3. The three rejections of [loginUser]: a missing (or empty) email or
    password is a client error 400; an email no record has is 404; a
    password the found record does not accept is 401. In each case the world
    is left as it was: no token is issued or stored. *)
Theorem login_rejections (req : LoginReq) (w : World) (e : Exn) :
  LoginRejected C w req e ->
  loginUser C req w = (inl e, w).
Proof.
  intros [Hmissing | email Hemail Hne Hpw Hnone | user Hem Hpw Hfound Hwrong];
    unfold loginUser, bind at 1, throwIf at 1.
  - assert (Hguard : negb (Js.truthy (login_email req))
                     || negb (Js.truthy (login_password req)) = true).
    { destruct Hmissing as [-> | ->]; [reflexivity | apply orb_true_r]. }
    rewrite Hguard. reflexivity.
  - apply truthy_Some in Hne. rewrite Hemail, Hne, Hpw. cbn [negb orb].
    unfold ret at 1, bind at 1, await. rewrite find_None_all; [reflexivity |].
    intros u Hu. cbn [existsb condHolds fst snd]. rewrite orb_false_r.
    apply not_true_is_false. rewrite fieldIs_true. apply Hnone. exact Hu.
  - rewrite Hem, Hpw. cbn [negb orb]. unfold ret at 1, bind at 1. rewrite Hfound.
    unfold bind at 1, throwIf at 1. rewrite Hwrong. reflexivity.
Qed.

(** What a reply of [loginUser] tells about the request, the reply and the
    store. *)
Lemma loginUser_inr (req : LoginReq) (w w' : World) (r : Response) :
  loginUser C req w = (inr (Sent r), w') ->
  exists user id accessToken refreshToken shown,
    await C (FindOne [("email", login_email req)]) w = (inr (Some user), w)
    /\ isPasswordCorrect C user (login_password req) = true
    /\ user !! "_id" = Some id
    /\ status r = 200
    /\ cookiesSet r = [("accessToken", Some accessToken);
                       ("refreshToken", Some refreshToken)]
    /\ data (json r) = DataLogin (Some shown) (Some accessToken) (Some refreshToken)
    /\ shown !! "password" = None /\ shown !! "refreshToken" = None
    /\ shown !! "_id" = Some id
    /\ storedRefreshToken w' id = Some (VStr refreshToken)
    /\ Forall2 (sameExcept ["refreshToken"]) (users w) (users w').
Proof.
  unfold loginUser. intros H.
  apply bind_inr in H as (? & w1 & H1 & H). apply throwIf_inr in H1 as [_ ->].
  apply bind_inr in H as (found & w1 & H1 & H).
  assert (w1 = w) as -> by (unfold await in H1; congruence).
  destruct found as [user |]; [| discriminate].
  apply bind_inr in H as (? & w1 & H2 & H). apply throwIf_inr in H2 as [Hpw ->].
  apply negb_false_iff in Hpw.
  apply bind_inr in H as ([accessToken refreshToken] & w4 & Hgen & H).
  destruct (find (byId (user !! "_id")) (users w)) as [stored |] eqn:Hfind;
    [| rewrite (generateAccessAndRefreshTokens_not_found C _ w Hfind) in Hgen;
       discriminate].
  pose proof (find_byId_Some _ _ _ Hfind) as (id & Hid & Hstored & _).
  rewrite Hid in Hgen, Hfind, H.
  destruct (generateAccessAndRefreshTokens_found C id stored w Hfind)
    as (us' & Hgen' & Hnew & Hsame).
  rewrite Hgen' in Hgen. injection Hgen as <- <- <-.
  apply bind_inr in H as (loggedInUser & w5 & H5 & H).
  unfold await in H5. cbn [users setUsers] in H5. rewrite Hnew in H5.
  injection H5 as <- <-. injection H as <- <-.
  eexists user, id, _, _, _.
  split; [exact H1 |]. split; [exact Hpw |]. split; [exact Hid |].
  split; [reflexivity |]. split; [reflexivity |]. split; [reflexivity |].
  split; [apply selectSafe_hides |]. split; [apply selectSafe_hides |].
  split; [| split; [| exact Hsame]].
  - rewrite selectSafe_keeps by discriminate.
    rewrite lookup_insert_ne by discriminate. exact Hstored.
  - unfold storedRefreshToken. cbn [users setUsers]. rewrite Hnew. simpl.
    apply lookup_insert_eq.
Qed.

(** X4. A login that is answered: the email resolved to a record that
    accepts the password; the reply has status 200 and carries the same pair
    of tokens in the cookies and in the body; the record shown in the body
    has neither password nor refresh token; and the refresh token of the
    reply is the one now stored on the user's record, no record having
    changed in any other field. *)
Theorem login_reply_matches_store (req : LoginReq) (w w' : World) (r : Response) :
  loginUser C req w = (inr (Sent r), w') ->
  exists user id accessToken refreshToken shown,
    await C (FindOne [("email", login_email req)]) w = (inr (Some user), w)
    /\ isPasswordCorrect C user (login_password req) = true
    /\ user !! "_id" = Some id
    /\ status r = 200
    /\ cookiesSet r = [("accessToken", Some accessToken);
                       ("refreshToken", Some refreshToken)]
    /\ data (json r) = DataLogin (Some shown) (Some accessToken) (Some refreshToken)
    /\ shown !! "password" = None /\ shown !! "refreshToken" = None
    /\ shown !! "_id" = Some id
    /\ storedRefreshToken w' id = Some (VStr refreshToken)
    /\ Forall2 (sameExcept ["refreshToken"]) (users w) (users w').
Proof. exact (loginUser_inr req w w' r). Qed.

(** X23. Login and refresh compose. When a login is answered and its refresh
    token, which is not empty, verifies with the identifier of the record
    shown in the reply as subject, then a refresh that presents this token
    in the cookie is answered too. *)
Theorem refresh_after_login_is_answered
    (req : LoginReq) (w w' : World) (r : Response)
    (shown decoded : Doc) (accessToken : option string) (refreshToken : string) :
  loginUser C req w = (inr (Sent r), w') ->
  data (json r) = DataLogin (Some shown) accessToken (Some refreshToken) ->
  refreshToken <> "" ->
  jwtVerify C (now w') refreshToken = inr decoded ->
  decoded !! "_id" = shown !! "_id" ->
  sessionValid C w' refreshToken = true
  /\ exists r' w'',
       refreshAccessToken C (mkRefreshReq (Some refreshToken) None) w'
       = (inr (Sent r'), w'').
Proof.
  intros Hlogin Hdata Hne Hverify Hsubject.
  destruct (loginUser_inr req w w' r Hlogin)
    as (user & id & a & t & shown' & _ & _ & _ & _ & _ & Hdata' & _ & _ & Hid
        & Hstored & _).
  rewrite Hdata in Hdata'. injection Hdata' as -> _ ->.
  assert (Hvalid : sessionValid C w' t = true).
  { unfold sessionValid. rewrite Hverify, Hsubject, Hid.
    unfold storedRefreshToken in Hstored.
    destruct (find (byId (Some id)) (users w')) as [stored |]; [| discriminate].
    simpl in Hstored. rewrite Hstored. unfold strictNe.
    rewrite String.eqb_refl. reflexivity. }
  split; [exact Hvalid |].
  assert (Hinc : Js.or (cookieRefreshToken (mkRefreshReq (Some t) None))
                       (bodyRefreshToken (mkRefreshReq (Some t) None)) = Some t).
  { unfold Js.or. cbn [cookieRefreshToken]. apply truthy_Some in Hne.
    rewrite Hne. reflexivity. }
  rewrite (refreshAccessToken_presented C _ w' t Hinc Hne).
  apply (sessionValid_true_iff C) in Hvalid as (reply & w'' & Hg).
  unfold tryCatch. rewrite Hg.
  apply (refreshGuarded_reply C) in Hg as (userId & -> & _). eauto.
Qed.

End LoginProperties.

Lemma login_rejections_witness :
  loginUser Fixture.collab (Fixture.bobLogsIn "wrong") Fixture.loggedIn
  = (inl (ApiError 401 "Password is incorrect"), Fixture.loggedIn).
Proof.
  apply (login_rejections Fixture.collab).
  apply (LoginWrongPassword Fixture.collab Fixture.loggedIn (Fixture.bobLogsIn "wrong")
           (Fixture.bob "T1")); vm_compute; reflexivity.
Defined.

Lemma refresh_after_login_is_answered_witness :
  sessionValid Fixture.collab Fixture.rotated "T2" = true
  /\ exists r' w'',
       refreshAccessToken Fixture.collab (mkRefreshReq (Some "T2") None) Fixture.rotated
       = (inr (Sent r'), w'').
Proof.
  apply (refresh_after_login_is_answered Fixture.collab (Fixture.bobLogsIn "pw")
           Fixture.rotated Fixture.rotated
           (mkResponse 200
              [("accessToken", Some "A2"); ("refreshToken", Some "T2")] []
              (mkApiResponse 200
                 (DataLogin (Some (selectSafe (Fixture.bob "T2"))) (Some "A2") (Some "T2"))
                 "User logged in successfully"))
           (selectSafe (Fixture.bob "T2")) Fixture.payload (Some "A2") "T2").
  - vm_compute. reflexivity.
  - reflexivity.
  - discriminate.
  - reflexivity.
  - vm_compute. reflexivity.
Defined.

Lemma login_reply_matches_store_witness :
  exists user id accessToken refreshToken shown,
    await Fixture.collab (FindOne [("email", Some "bob@x.io")]) Fixture.rotated
    = (inr (Some user), Fixture.rotated)
    /\ isPasswordCorrect Fixture.collab user (Some "pw") = true
    /\ user !! "_id" = Some id
    /\ status (mkResponse 200
                 [("accessToken", Some "A2"); ("refreshToken", Some "T2")] []
                 (mkApiResponse 200
                    (DataLogin (Some (selectSafe (Fixture.bob "T2"))) (Some "A2") (Some "T2"))
                    "User logged in successfully")) = 200
    /\ [("accessToken", Some "A2"); ("refreshToken", Some "T2")]
       = [("accessToken", Some accessToken); ("refreshToken", Some refreshToken)]
    /\ DataLogin (Some (selectSafe (Fixture.bob "T2"))) (Some "A2") (Some "T2")
       = DataLogin (Some shown) (Some accessToken) (Some refreshToken)
    /\ shown !! "password" = None /\ shown !! "refreshToken" = None
    /\ shown !! "_id" = Some id
    /\ storedRefreshToken Fixture.rotated id = Some (VStr refreshToken)
    /\ Forall2 (sameExcept ["refreshToken"]) (users Fixture.rotated)
         (users Fixture.rotated).
Proof.
  apply (login_reply_matches_store Fixture.collab (Fixture.bobLogsIn "pw")
           Fixture.rotated Fixture.rotated
           (mkResponse 200
              [("accessToken", Some "A2"); ("refreshToken", Some "T2")] []
              (mkApiResponse 200
                 (DataLogin (Some (selectSafe (Fixture.bob "T2"))) (Some "A2") (Some "T2"))
                 "User logged in successfully"))).
  vm_compute. reflexivity.
Defined.

(** ** Token refresh: acceptance and rotation *)

Section RefreshRotation.

Variable C : Collab.

(** X5. Without a refresh token, in the cookie or in the body, the request
    is turned down with 401 before anything is verified; a token that is the
    empty string counts as none. *)
Theorem refresh_without_token_is_unauthorized (req : RefreshReq) (w : World) :
  Js.truthy (cookieRefreshToken req) = false ->
  Js.truthy (bodyRefreshToken req) = false ->
  refreshAccessToken C req w
  = (inl (ApiError 401 "Error: Did not receive refresh token"), w).
Proof.
  intros Hcookie Hbody. unfold refreshAccessToken, Js.or. rewrite Hcookie.
  unfold bind at 1, throwIf. rewrite Hbody. reflexivity.
Qed.

(** What the guarded block has checked when it replies. *)
Lemma refreshGuarded_inr (token : string) (w w' : World) (reply : Reply) :
  refreshGuarded C (Some token) w = (inr reply, w') ->
  exists decoded user,
    jwtVerify C (now w) token = inr decoded
    /\ find (byId (decoded !! "_id")) (users w) = Some user
    /\ user !! "refreshToken" = Some (VStr token)
    /\ w' = enqueue (TaskIssueTokens (user !! "_id")) w.
Proof.
  unfold refreshGuarded, bind, verify, await, throwIf, modify, ret.
  destruct (jwtVerify C (now w) token) as [msg | decoded] eqn:Hv; [discriminate |].
  destruct (find (byId (decoded !! "_id")) (users w)) as [user |] eqn:Hfind;
    simpl; [| discriminate].
  destruct (strictNe (Some token) (user !! "refreshToken")) eqn:Hne;
    simpl; [discriminate |].
  intros [= _ <-]. exists decoded, user.
  split; [reflexivity |]. split; [exact Hfind |]. split; [| reflexivity].
  unfold strictNe in Hne.
  destruct (user !! "refreshToken") as [[t | | | | | |] |]; try discriminate Hne.
  apply negb_false_iff, String.eqb_eq in Hne. congruence.
Qed.

(** X6. With a token presented, [refreshAccessToken] sends a reply exactly
    when the token verifies, its subject is a user record, and it is the
    refresh token stored on that record. *)
Theorem refresh_replies_iff_session_valid
    (req : RefreshReq) (w : World) (token : string) :
  Js.or (cookieRefreshToken req) (bodyRefreshToken req) = Some token ->
  token <> "" ->
  (exists r w', refreshAccessToken C req w = (inr (Sent r), w'))
  <-> sessionValid C w token = true.
Proof.
  intros Hinc Hne. rewrite (refreshAccessToken_presented C req w token Hinc Hne).
  rewrite sessionValid_true_iff. unfold tryCatch. split.
  - intros (r & w' & H).
    destruct (refreshGuarded C (Some token) w) as [[error | reply] w1]; [| eauto].
    unfold refreshCatch, ret in H. discriminate.
  - intros (reply & w' & H). rewrite H.
    apply refreshGuarded_reply in H as (userId & -> & _). eauto.
Qed.

(** X7. Rotation by overwrite. A refresh that is answered in a world with
    no work pending has written nothing when it replies; once the token
    issuance it started has run, at whatever time, the refresh token stored
    on the user's record is the one generated at that time, and no record
    has changed in any other field. *)
Theorem refresh_rotates_stored_token
    (req : RefreshReq) (w w1 : World) (r : Response) (t : nat) :
  pending w = [] ->
  refreshAccessToken C req w = (inr (Sent r), w1) ->
  exists user id,
    find (byId (Some id)) (users w) = Some user
    /\ users w1 = users w
    /\ storedRefreshToken (settle C (atTime t w1)) id
       = Some (VStr (generateRefreshToken C user t))
    /\ Forall2 (sameExcept ["refreshToken"]) (users w)
         (users (settle C (atTime t w1))).
Proof.
  intros Hquiet Hok. unfold refreshAccessToken in Hok.
  apply bind_inr in Hok as (? & w0 & H0 & Hok). apply throwIf_inr in H0 as [Htruthy ->].
  apply negb_false_iff in Htruthy.
  destruct (Js.or (cookieRefreshToken req) (bodyRefreshToken req)) as [token |];
    [| discriminate].
  unfold tryCatch in Hok.
  destruct (refreshGuarded C (Some token) w) as [[error | reply] w2] eqn:Hg;
    [unfold refreshCatch, ret in Hok; discriminate |].
  injection Hok as -> ->.
  apply refreshGuarded_inr in Hg as (decoded & user & _ & Hfind & _ & ->).
  pose proof (find_byId_Some _ _ _ Hfind) as (id & Hdecoded & Hid & _).
  rewrite Hdecoded in Hfind. rewrite Hid.
  exists user, id. split; [exact Hfind |]. split; [reflexivity |].
  set (w2 := clearPending (atTime t (enqueue (TaskIssueTokens (Some id)) w))).
  assert (Hfind2 : find (byId (Some id)) (users w2) = Some user) by exact Hfind.
  destruct (generateAccessAndRefreshTokens_found C id user w2 Hfind2)
    as (us' & Hgen & Hnew & Hsame).
  assert (Hsettle : settle C (atTime t (enqueue (TaskIssueTokens (Some id)) w))
                    = setUsers us' w2).
  { unfold settle. cbn [pending atTime enqueue]. rewrite Hquiet.
    cbn [app fold_left runTask]. fold w2. unfold bind. rewrite Hgen. reflexivity. }
  rewrite Hsettle. split; [| exact Hsame].
  unfold storedRefreshToken. cbn [users setUsers]. rewrite Hnew. simpl.
  apply lookup_insert_eq.
Qed.

End RefreshRotation.

Lemma refresh_without_token_is_unauthorized_witness :
  refreshAccessToken Fixture.collab (mkRefreshReq (Some "") None) Fixture.loggedIn
  = (inl (ApiError 401 "Error: Did not receive refresh token"), Fixture.loggedIn).
Proof.
  apply (refresh_without_token_is_unauthorized Fixture.collab); reflexivity.
Defined.

Lemma refresh_replies_iff_session_valid_witness :
  (exists r w',
     refreshAccessToken Fixture.collab Fixture.presentT1 Fixture.loggedIn
     = (inr (Sent r), w'))
  <-> sessionValid Fixture.collab Fixture.loggedIn "T1" = true.
Proof.
  apply (refresh_replies_iff_session_valid Fixture.collab Fixture.presentT1
           Fixture.loggedIn "T1").
  - reflexivity.
  - discriminate.
Defined.

Lemma refresh_rotates_stored_token_witness :
  exists user id,
    find (byId (Some id)) (users Fixture.loggedIn) = Some user
    /\ users (snd (refreshAccessToken Fixture.collab Fixture.presentT1 Fixture.loggedIn))
       = users Fixture.loggedIn
    /\ storedRefreshToken
         (settle Fixture.collab
            (atTime 1 (snd (refreshAccessToken Fixture.collab Fixture.presentT1
                              Fixture.loggedIn)))) id
       = Some (VStr (generateRefreshToken Fixture.collab user 1))
    /\ Forall2 (sameExcept ["refreshToken"]) (users Fixture.loggedIn)
         (users (settle Fixture.collab
                   (atTime 1 (snd (refreshAccessToken Fixture.collab Fixture.presentT1
                                     Fixture.loggedIn))))).
Proof.
  eapply (refresh_rotates_stored_token Fixture.collab Fixture.presentT1 Fixture.loggedIn).
  - reflexivity.
  - vm_compute. reflexivity.
Defined.

(** ** Password change: rejections and the stored password *)

Section PasswordChange.

Variable C : Collab.

(** X8. The three rejections of [changePassword]: an old or new password
    that is missing (or empty) is a client error 400; an authenticated
    identity no record has is 404; an old password the record does not accept
    is 401. In each case the world is left as it was and no save is
    started. *)
Theorem changePassword_rejections (req : ChangePasswordReq) (w : World) (e : Exn) :
  PasswordChangeRejected C w req e ->
  changePassword C req w = (inl e, w).
Proof.
  intros [Hmissing | Hold Hnew Hgone | user Hold Hnew Hfound Hwrong];
    unfold changePassword, bind at 1, throwIf at 1.
  - assert (Hguard : negb (Js.truthy (oldPassword req))
                     || negb (Js.truthy (newPassword req)) = true).
    { destruct Hmissing as [-> | ->]; [reflexivity | apply orb_true_r]. }
    rewrite Hguard. reflexivity.
  - rewrite Hold, Hnew. cbn [negb orb]. unfold ret at 1, bind at 1, await.
    rewrite Hgone. reflexivity.
  - rewrite Hold, Hnew. cbn [negb orb]. unfold ret at 1, bind at 1, await.
    rewrite Hfound. unfold bind at 1, throwIf at 1. rewrite Hwrong. reflexivity.
Qed.


End PasswordChange.

Lemma changePassword_rejections_witness :
  changePassword Fixture.collab
    (mkChangePasswordReq (Some (selectSafe (Fixture.bob "T1"))) (Some "guess") (Some "pw2"))
    Fixture.loggedIn
  = (inl (ApiError 401 "Old password is incorrect"), Fixture.loggedIn).
Proof.
  apply (changePassword_rejections Fixture.collab).
  apply (PasswordOldWrong Fixture.collab Fixture.loggedIn _ (Fixture.bob "T1"));
    vm_compute; reflexivity.
Defined.


(** ** Profile updates: details, avatar, cover image *)

Lemma applySet_sameExcept (set : list (string * option Value)) (d : Doc) :
  sameExcept (map fst set) d (applySet set d).
Proof.
  unfold applySet. revert d.
  induction set as [| [k v] set IH]; intros d key Hkey; simpl; [reflexivity |].
  rewrite IH by (intros Hin; apply Hkey; right; exact Hin).
  destruct v as [v |]; [| reflexivity].
  apply lookup_insert_ne. intros ->. apply Hkey. left. reflexivity.
Qed.

Section ProfileUpdates.

Variable C : Collab.

(** An awaited [findByIdAndUpdate] that does not set [_id]: the record with
    the identifier gets the update and is returned as updated, every record
    keeps the fields the update does not name; with no such record nothing
    is written and the query yields [null]. *)
Lemma await_update_found
    (id : Value) (set : list (string * option Value)) (stored : Doc) (w : World) :
  ~ In "_id" (map fst set) ->
  find (byId (Some id)) (users w) = Some stored ->
  exists us',
    await C (FindByIdAndUpdate (Some id) set) w
    = (inr (Some (applySet set stored)), setUsers us' w)
    /\ find (byId (Some id)) us' = Some (applySet set stored)
    /\ Forall2 (sameExcept (map fst set)) (users w) us'.
Proof.
  intros Hset Hfind.
  destruct (updateFirst_Some (byId (Some id)) (applySet set) (users w) stored Hfind)
    as (us' & Hup & Hfound).
  { apply byId_true. exists id. split; [reflexivity |].
    rewrite (applySet_sameExcept set stored "_id" Hset).
    apply find_byId_Some in Hfind as (v & [= <-] & Hv & _). exact Hv. }
  exists us'. unfold await. rewrite Hup, Hfound. split; [reflexivity |].
  split; [reflexivity |].
  apply (updateFirst_sameExcept _ (byId (Some id)) (applySet set) (users w) us');
    [apply applySet_sameExcept | exact Hup].
Qed.

Lemma await_update_missing
    (id : option Value) (set : list (string * option Value)) (w : World) :
  find (byId id) (users w) = None ->
  await C (FindByIdAndUpdate id set) w = (inr None, w).
Proof.
  intros Hfind. unfold await. rewrite (updateFirst_None _ _ _ Hfind). reflexivity.
Qed.

(** [updateUserDetails] for a caller whose record is in the store, with a
    full name and an email that are not empty. *)
Lemma updateUserDetails_found
    (req : UpdateDetailsReq) (w : World) (caller stored : Doc) (id : Value)
    (fullName email : string) :
  ud_user req = Some caller ->
  caller !! "_id" = Some id ->
  find (byId (Some id)) (users w) = Some stored ->
  ud_fullName req = Some fullName -> fullName <> "" ->
  ud_email req = Some email -> email <> "" ->
  exists shown w',
    updateUserDetails C req w
    = (inr (respond 200 [] []
              (mkApiResponse 200 (DataDoc shown) "User details updated successfully")),
       w')
    /\ shown !! "fullName" = Some (VStr fullName)
    /\ shown !! "email" = Some (VStr email)
    /\ shown !! "password" = None /\ shown !! "refreshToken" = None
    /\ shown !! "_id" = Some id
    /\ storedField w' id "fullName" = Some (VStr fullName)
    /\ storedField w' id "email" = Some (VStr email)
    /\ Forall2 (sameExcept ["fullName"; "email"]) (users w) (users w')
    /\ uploads w' = uploads w /\ pending w' = pending w.
Proof.
  intros Huser Hid Hfind Hname Hname_ne Hemail Hemail_ne.
  apply truthy_Some in Hname_ne, Hemail_ne.
  destruct (await_update_found id
              [("fullName", Some (VStr fullName)); ("email", Some (VStr email))]
              stored w) as (us' & Hawait & Hfound & Hsame); [| exact Hfind |].
  { simpl. intros [[=] | [[=] | []]]. }
  eexists. exists (setUsers us' w). split.
  - unfold updateUserDetails, bind at 1, throwIf at 1.
    rewrite Hname, Hemail, Hname_ne, Hemail_ne. cbn [negb orb]. unfold ret at 1.
    unfold bind at 1, liftE, idOfUser. rewrite Huser, Hid.
    unfold bind at 1. cbn [fmap option_fmap option_map]. rewrite Hawait.
    reflexivity.
  - assert (Hnew : forall key,
               applySet [("fullName", Some (VStr fullName)); ("email", Some (VStr email))]
                 stored !! key
               = <["email" := VStr email]> (<["fullName" := VStr fullName]> stored) !! key)
      by reflexivity.
    split; [rewrite selectSafe_keeps by discriminate; rewrite Hnew;
            rewrite lookup_insert_ne by discriminate; apply lookup_insert_eq |].
    split; [rewrite selectSafe_keeps by discriminate; rewrite Hnew;
            apply lookup_insert_eq |].
    split; [apply selectSafe_hides |]. split; [apply selectSafe_hides |].
    split; [rewrite selectSafe_keeps by discriminate; rewrite Hnew;
            rewrite !lookup_insert_ne by discriminate;
            apply find_byId_Some in Hfind as (v & [= <-] & Hv & _); exact Hv |].
    unfold storedField. cbn [users setUsers]. rewrite Hfound.
    cbn [mbind option_bind]. rewrite !Hnew.
    split; [rewrite lookup_insert_ne by discriminate; apply lookup_insert_eq |].
    split; [apply lookup_insert_eq |].
    split; [exact Hsame | split; reflexivity].
Qed.

(** The failures of [updateUserDetails] when the store answers. *)
Lemma updateUserDetails_inl (req : UpdateDetailsReq) (w w' : World) (e : Exn) :
  updateUserDetails C req w = (inl e, w') ->
  w' = w
  /\ ((e = ApiError 400 "Fullname and email are required"
       /\ (Js.truthy (ud_fullName req) = false \/ Js.truthy (ud_email req) = false))
      \/ (e = TypeError "Cannot read properties of undefined (reading '_id')"
          /\ ud_user req = None)).
Proof.
  unfold updateUserDetails. intros H.
  apply bind_inl in H as [H | (? & w1 & H1 & H)].
  - unfold throwIf in H.
    destruct (negb (Js.truthy (ud_fullName req)) || negb (Js.truthy (ud_email req)))
      eqn:Hguard; [| discriminate].
    injection H as <- <-. split; [reflexivity |]. left. split; [reflexivity |].
    apply orb_true_iff in Hguard as [Hg | Hg]; apply negb_true_iff in Hg; auto.
  - apply throwIf_inr in H1 as [_ ->].
    apply bind_inl in H as [H | (id & w1 & H1 & H)].
    + unfold liftE, idOfUser in H. destruct (ud_user req); [discriminate |].
      injection H as <- <-. split; [reflexivity |]. right. split; reflexivity.
    + apply liftE_inr in H1 as [_ ->].
      apply bind_inl in H as [H | (user & w1 & H1 & H)]; [| discriminate].
      unfold await in H. destruct (updateFirst _ _ _); discriminate.
Qed.

(** X10. An answer of [updateUserDetails]. The full name and the email of the
    request were not empty; no record has changed in a field other than
    these two. Either the reply shows a record: then it has the two values,
    it is shown without password and refresh token, and the stored record
    with its identifier has the two values; or the reply carries [null] and
    nothing was written. *)
Theorem updateUserDetails_answer
    (req : UpdateDetailsReq) (w w' : World) (r : Response) :
  updateUserDetails C req w = (inr (Sent r), w') ->
  exists fullName email,
    ud_fullName req = Some fullName /\ fullName <> ""
    /\ ud_email req = Some email /\ email <> ""
    /\ status r = 200
    /\ Forall2 (sameExcept ["fullName"; "email"]) (users w) (users w')
    /\ uploads w' = uploads w /\ pending w' = pending w
    /\ match data (json r) with
       | DataDoc shown =>
           shown !! "fullName" = Some (VStr fullName)
           /\ shown !! "email" = Some (VStr email)
           /\ shown !! "password" = None /\ shown !! "refreshToken" = None
           /\ exists id, shown !! "_id" = Some id
                         /\ storedField w' id "fullName" = Some (VStr fullName)
                         /\ storedField w' id "email" = Some (VStr email)
       | DataNull => w' = w
       | _ => False
       end.
Proof.
  intros Hok. pose proof Hok as Hrun. unfold updateUserDetails in Hok.
  apply bind_inr in Hok as (? & w1 & H1 & Hok). apply throwIf_inr in H1 as [Hguard ->].
  apply orb_false_iff in Hguard as [Hname Hemail].
  apply negb_false_iff in Hname, Hemail.
  destruct (ud_fullName req) as [fullName |] eqn:HfullName; [| discriminate Hname].
  destruct (ud_email req) as [email |] eqn:Hmail; [| discriminate Hemail].
  apply truthy_Some in Hname, Hemail.
  apply bind_inr in Hok as (id & w1 & H1 & Hok). apply liftE_inr in H1 as [Hid ->].
  unfold idOfUser in Hid. destruct (ud_user req) as [caller |] eqn:Hcaller;
    [| discriminate Hid].
  injection Hid as <-.
  exists fullName, email. repeat (split; [reflexivity || assumption |]).
  destruct (find (byId (caller !! "_id")) (users w)) as [stored |] eqn:Hfind.
  - pose proof (find_byId_Some _ _ _ Hfind) as (id & Hid & Hstored & _).
    rewrite Hid in Hfind.
    destruct (updateUserDetails_found req w caller stored id fullName email
                Hcaller Hid Hfind HfullName Hname Hmail Hemail)
      as (shown & w2 & Hrun' & Hs1 & Hs2 & Hs3 & Hs4 & Hs5 & Hf1 & Hf2 & Hsame & Hup
          & Hpend).
    rewrite Hrun in Hrun'. injection Hrun' as -> ->.
    split; [reflexivity |]. split; [exact Hsame |]. split; [exact Hup |].
    split; [exact Hpend |]. cbn [data json].
    repeat (split; [assumption |]). exists id. repeat (split; [assumption |]).
    assumption.
  - apply bind_inr in Hok as (user & w1 & H1 & Hok).
    rewrite (await_update_missing _ _ w Hfind) in H1. injection H1 as <- <-.
    cbn [fmap option_fmap option_map] in Hok. injection Hok as <- <-.
    split; [reflexivity |]. split; [apply Forall2_sameExcept_refl |].
    split; [reflexivity |]. split; reflexivity.
Qed.

(** X11. A failure of [updateUserDetails] has written nothing. The client
    error 400 "Fullname and email are required" is raised only for a full
    name or an email that is missing or empty, and the [TypeError] on
    [req.user._id] only for a request without resolved caller. *)
Theorem updateUserDetails_failures (req : UpdateDetailsReq) (w w' : World) (e : Exn) :
  updateUserDetails C req w = (inl e, w') ->
  w' = w
  /\ (e = ApiError 400 "Fullname and email are required" ->
      Js.truthy (ud_fullName req) = false \/ Js.truthy (ud_email req) = false)
  /\ (e = TypeError "Cannot read properties of undefined (reading '_id')" ->
      ud_user req = None).
Proof.
  intros Hfail.
  destruct (updateUserDetails_inl req w w' e Hfail)
    as (Hw & [[-> Hguard] | [-> Huser]]).
  - split; [exact Hw |]. split; [intros _; exact Hguard | discriminate].
  - split; [exact Hw |]. split; [discriminate | intros _; exact Huser].
Qed.

(** X12. A caller whose record is no longer in the store is not an error for
    [updateUserDetails]: the reply is 200 with [null] as data, and nothing is
    written. *)
Theorem updateUserDetails_without_record
    (req : UpdateDetailsReq) (w : World) (caller : Doc) :
  ud_user req = Some caller ->
  find (byId (caller !! "_id")) (users w) = None ->
  Js.truthy (ud_fullName req) = true ->
  Js.truthy (ud_email req) = true ->
  updateUserDetails C req w
  = (inr (respond 200 [] []
            (mkApiResponse 200 DataNull "User details updated successfully")),
     w).
Proof.
  intros Huser Hgone Hname Hemail.
  unfold updateUserDetails, bind at 1, throwIf at 1. rewrite Hname, Hemail.
  cbn [negb orb]. unfold ret at 1, bind at 1, liftE, idOfUser. rewrite Huser.
  unfold bind at 1. rewrite (await_update_missing _ _ w Hgone). reflexivity.
Qed.

(** The two single-file updates have the same shape; so have their proofs. *)
Ltac asset_update_found handler Hfile Hpath Hnonempty Hup Huser Hid Hawait :=
  unfold handler, bind at 1, throwIf at 1;
  rewrite Hfile; cbn [mbind option_bind]; rewrite Hpath, Hnonempty;
  cbn [negb]; unfold ret at 1, bind at 1, upload at 1; rewrite Hup;
  unfold bind at 1, liftE, idOfUser; rewrite Huser, Hid;
  unfold bind at 1; cbn [users logUpload] in Hawait |- *; rewrite Hawait;
  reflexivity.

Ltac asset_update_failures req :=
  let H := fresh "H" in
  let H1 := fresh "H1" in
  let H2 := fresh "H2" in
  let H3 := fresh "H3" in
  let H4 := fresh "H4" in
  let Hguard := fresh "Hguard" in
  let Hasset := fresh "Hasset" in
  let Huser := fresh "Huser" in
  let asset := fresh "asset" in
  let a := fresh "a" in
  let id := fresh "id" in
  let user := fresh "user" in
  let w1 := fresh "w1" in
  let w2 := fresh "w2" in
  let w3 := fresh "w3" in
  let w4 := fresh "w4" in
  intros H;
  apply bind_inl in H as [H | (? & w1 & H1 & H)];
  [ unfold throwIf in H;
    destruct (negb (Js.truthy (uf_file req ≫= path))) eqn:Hguard;
      [| discriminate H];
    injection H as <- <-; apply negb_true_iff in Hguard;
    split; [reflexivity |]; split; [reflexivity |]; left;
    split; [reflexivity |]; split; [reflexivity | exact Hguard]
  | apply throwIf_inr in H1 as [_ ->];
    apply bind_inl in H as [H | (asset & w2 & H2 & H)];
      [unfold upload in H; discriminate H |];
    unfold upload in H2; injection H2 as Hasset <-;
    destruct asset as [a |];
    [ apply bind_inl in H as [H | (id & w3 & H3 & H)];
      [ unfold liftE, idOfUser in H;
        destruct (uf_user req) eqn:Huser; [discriminate H |];
        injection H as <- <-;
        split; [reflexivity |]; split; [reflexivity |]; right; right;
        split; [reflexivity |]; split; reflexivity
      | apply liftE_inr in H3 as [_ ->];
        apply bind_inl in H as [H | (user & w4 & H4 & H)]; [| discriminate H];
        unfold await in H; destruct (updateFirst _ _ _); discriminate H ]
    | unfold throw in H; injection H as <- <-;
      split; [reflexivity |]; split; [reflexivity |]; right; left;
      split; [reflexivity |]; split; [reflexivity | exact Hasset] ] ].

(** X13. [updateUserAvatar] with a file whose upload works, for a caller
    whose record is in the store: exactly one upload is made, the record's
    [avatar] becomes the uploaded URL, no record changes in any other field,
    and the reply is 200 with the updated record shown without password and
    refresh token. *)
Theorem updateUserAvatar_stores_url
    (req : UpdateFileReq) (w : World) (file : File) (localPath : string)
    (asset : Asset) (caller stored : Doc) (id : Value) :
  uf_file req = Some file -> path file = Some localPath -> localPath <> "" ->
  uploadAssetsOnCloudinary C (Some localPath) = Some asset ->
  uf_user req = Some caller -> caller !! "_id" = Some id ->
  find (byId (Some id)) (users w) = Some stored ->
  exists shown w',
    updateUserAvatar C req w
    = (inr (respond 200 [] []
              (mkApiResponse 200 (DataDoc shown) "User avatar updated successfully")),
       w')
    /\ shown !! "avatar" = Some (VStr (url asset))
    /\ shown !! "password" = None /\ shown !! "refreshToken" = None
    /\ storedField w' id "avatar" = Some (VStr (url asset))
    /\ Forall2 (sameExcept ["avatar"]) (users w) (users w')
    /\ uploads w' = (uploads w ++ [Some localPath])%list.
Proof.
  intros Hfile Hpath Hnonempty Hup Huser Hid Hfind.
  apply truthy_Some in Hnonempty.
  destruct (await_update_found id [("avatar", Some (VStr (url asset)))] stored
              (logUpload (Some localPath) w))
    as (us' & Hawait & Hfound & Hsame); [| exact Hfind |].
  { simpl. intros [[=] | []]. }
  eexists. exists (setUsers us' (logUpload (Some localPath) w)).
  split; [asset_update_found updateUserAvatar Hfile Hpath Hnonempty Hup Huser Hid Hawait |].
  split; [rewrite selectSafe_keeps by discriminate; apply lookup_insert_eq |].
  split; [apply selectSafe_hides |]. split; [apply selectSafe_hides |].
  unfold storedField. cbn [users setUsers]. rewrite Hfound.
  split; [apply lookup_insert_eq |]. split; [exact Hsame | reflexivity].
Qed.

(** The failures of [updateUserAvatar] when the store answers. *)
Lemma updateUserAvatar_inl (req : UpdateFileReq) (w w' : World) (e : Exn) :
  updateUserAvatar C req w = (inl e, w') ->
  users w' = users w /\ pending w' = pending w
  /\ ((e = ApiError 400 "Avatar file is required" /\ w' = w
        /\ Js.truthy (uf_file req ≫= path) = false)
      \/ (e = ApiError 400 "Error uploading avatar file to cloudinary"
          /\ w' = logUpload (uf_file req ≫= path) w
          /\ uploadAssetsOnCloudinary C (uf_file req ≫= path) = None)
      \/ (e = TypeError "Cannot read properties of undefined (reading '_id')"
          /\ w' = logUpload (uf_file req ≫= path) w
          /\ uf_user req = None)).
Proof. unfold updateUserAvatar. asset_update_failures req. Qed.

(** X14. A failure of [updateUserAvatar] leaves the users as they were, and
    at most the one upload has been made. The client error 400 "Avatar file is required" is
    raised only for a request without a file path, and then before any upload;
    the 400 "Error uploading avatar file to cloudinary" only when the upload gave nothing; the [TypeError] on
    [req.user._id] only for a request without resolved caller, and then after
    the upload. *)
Theorem updateUserAvatar_failures (req : UpdateFileReq) (w w' : World) (e : Exn) :
  updateUserAvatar C req w = (inl e, w') ->
  users w' = users w /\ pending w' = pending w
  /\ (w' = w \/ w' = logUpload (uf_file req ≫= path) w)
  /\ (e = ApiError 400 "Avatar file is required" ->
      w' = w /\ Js.truthy (uf_file req ≫= path) = false)
  /\ (e = ApiError 400 "Error uploading avatar file to cloudinary" ->
      w' = logUpload (uf_file req ≫= path) w
      /\ uploadAssetsOnCloudinary C (uf_file req ≫= path) = None)
  /\ (e = TypeError "Cannot read properties of undefined (reading '_id')" ->
      w' = logUpload (uf_file req ≫= path) w /\ uf_user req = None).
Proof.
  intros Hfail.
  destruct (updateUserAvatar_inl req w w' e Hfail)
    as (Husers & Hpending & [(-> & Hw & H) | [(-> & Hw & H) | (-> & Hw & H)]]);
    (split; [exact Husers |]); (split; [exact Hpending |]);
    (split; [auto |]); repeat split; intros; assumption || discriminate.
Qed.


(** X15. [updateUserCoverImage] with a file whose upload works, for a caller
    whose record is in the store: exactly one upload is made, the record's
    [coverImage] becomes the uploaded URL, no record changes in any other
    field, and the reply is 200 with the updated record shown without
    password and refresh token. *)
Theorem updateUserCoverImage_stores_url
    (req : UpdateFileReq) (w : World) (file : File) (localPath : string)
    (asset : Asset) (caller stored : Doc) (id : Value) :
  uf_file req = Some file -> path file = Some localPath -> localPath <> "" ->
  uploadAssetsOnCloudinary C (Some localPath) = Some asset ->
  uf_user req = Some caller -> caller !! "_id" = Some id ->
  find (byId (Some id)) (users w) = Some stored ->
  exists shown w',
    updateUserCoverImage C req w
    = (inr (respond 200 [] []
              (mkApiResponse 200 (DataDoc shown) "User cover Image updated successfully")),
       w')
    /\ shown !! "coverImage" = Some (VStr (url asset))
    /\ shown !! "password" = None /\ shown !! "refreshToken" = None
    /\ storedField w' id "coverImage" = Some (VStr (url asset))
    /\ Forall2 (sameExcept ["coverImage"]) (users w) (users w')
    /\ uploads w' = (uploads w ++ [Some localPath])%list.
Proof.
  intros Hfile Hpath Hnonempty Hup Huser Hid Hfind.
  apply truthy_Some in Hnonempty.
  destruct (await_update_found id [("coverImage", Some (VStr (url asset)))] stored
              (logUpload (Some localPath) w))
    as (us' & Hawait & Hfound & Hsame); [| exact Hfind |].
  { simpl. intros [[=] | []]. }
  eexists. exists (setUsers us' (logUpload (Some localPath) w)).
  split; [asset_update_found updateUserCoverImage Hfile Hpath Hnonempty Hup Huser Hid
            Hawait |].
  split; [rewrite selectSafe_keeps by discriminate; apply lookup_insert_eq |].
  split; [apply selectSafe_hides |]. split; [apply selectSafe_hides |].
  unfold storedField. cbn [users setUsers]. rewrite Hfound.
  split; [apply lookup_insert_eq |]. split; [exact Hsame | reflexivity].
Qed.

(** The failures of [updateUserCoverImage] when the store answers. *)
Lemma updateUserCoverImage_inl (req : UpdateFileReq) (w w' : World) (e : Exn) :
  updateUserCoverImage C req w = (inl e, w') ->
  users w' = users w /\ pending w' = pending w
  /\ ((e = ApiError 400 "Cover Image file is required" /\ w' = w
        /\ Js.truthy (uf_file req ≫= path) = false)
      \/ (e = ApiError 400 "Error uploading coverImage file to cloudinary"
          /\ w' = logUpload (uf_file req ≫= path) w
          /\ uploadAssetsOnCloudinary C (uf_file req ≫= path) = None)
      \/ (e = TypeError "Cannot read properties of undefined (reading '_id')"
          /\ w' = logUpload (uf_file req ≫= path) w
          /\ uf_user req = None)).
Proof. unfold updateUserCoverImage. asset_update_failures req. Qed.

(** X16. A failure of [updateUserCoverImage] leaves the users as they were, and
    at most the one upload has been made. The client error 400 "Cover Image file is required" is
    raised only for a request without a file path, and then before any upload;
    the 400 "Error uploading coverImage file to cloudinary" only when the upload gave nothing; the [TypeError] on
    [req.user._id] only for a request without resolved caller, and then after
    the upload. *)
Theorem updateUserCoverImage_failures (req : UpdateFileReq) (w w' : World) (e : Exn) :
  updateUserCoverImage C req w = (inl e, w') ->
  users w' = users w /\ pending w' = pending w
  /\ (w' = w \/ w' = logUpload (uf_file req ≫= path) w)
  /\ (e = ApiError 400 "Cover Image file is required" ->
      w' = w /\ Js.truthy (uf_file req ≫= path) = false)
  /\ (e = ApiError 400 "Error uploading coverImage file to cloudinary" ->
      w' = logUpload (uf_file req ≫= path) w
      /\ uploadAssetsOnCloudinary C (uf_file req ≫= path) = None)
  /\ (e = TypeError "Cannot read properties of undefined (reading '_id')" ->
      w' = logUpload (uf_file req ≫= path) w /\ uf_user req = None).
Proof.
  intros Hfail.
  destruct (updateUserCoverImage_inl req w w' e Hfail)
    as (Husers & Hpending & [(-> & Hw & H) | [(-> & Hw & H) | (-> & Hw & H)]]);
    (split; [exact Husers |]); (split; [exact Hpending |]);
    (split; [auto |]); repeat split; intros; assumption || discriminate.
Qed.


End ProfileUpdates.

Lemma updateUserDetails_answer_witness :
  Forall2 (sameExcept ["fullName"; "email"]) (users Fixture.loggedIn)
    (users (snd (updateUserDetails Fixture.collab Fixture.bobRenames Fixture.loggedIn))).
Proof.
  destruct (updateUserDetails Fixture.collab Fixture.bobRenames Fixture.loggedIn)
    as [[e | [r |]] w'] eqn:Hrun;
    [vm_compute in Hrun; discriminate Hrun | | vm_compute in Hrun; discriminate Hrun].
  destruct (updateUserDetails_answer Fixture.collab Fixture.bobRenames Fixture.loggedIn
              w' r Hrun) as (fullName & email & _ & _ & _ & _ & _ & Hsame & _).
  exact Hsame.
Defined.

Lemma updateUserDetails_failures_witness :
  snd (updateUserDetails Fixture.collab
         (mkUpdateDetailsReq (Some (selectSafe (Fixture.bob "T1"))) (Some "")
            (Some "rob@x.io"))
         Fixture.loggedIn)
  = Fixture.loggedIn.
Proof.
  destruct (updateUserDetails Fixture.collab
              (mkUpdateDetailsReq (Some (selectSafe (Fixture.bob "T1"))) (Some "")
                 (Some "rob@x.io"))
              Fixture.loggedIn) as [[e | reply] w'] eqn:Hrun;
    [| vm_compute in Hrun; discriminate Hrun].
  destruct (updateUserDetails_failures Fixture.collab _ Fixture.loggedIn w' e Hrun)
    as (Hw & _).
  exact Hw.
Defined.

Lemma updateUserDetails_without_record_witness :
  updateUserDetails Fixture.collab
    (mkUpdateDetailsReq (Some {[ "_id" := VOid 3 ]}) (Some "Robert") (Some "rob@x.io"))
    Fixture.loggedIn
  = (inr (respond 200 [] []
            (mkApiResponse 200 DataNull "User details updated successfully")),
     Fixture.loggedIn).
Proof.
  apply (updateUserDetails_without_record Fixture.collab _ Fixture.loggedIn
           {[ "_id" := VOid 3 ]}); vm_compute; reflexivity.
Defined.

Lemma updateUserAvatar_stores_url_witness :
  exists shown w',
    updateUserAvatar Fixture.collab (Fixture.bobSendsFile (Some "/tmp/n.png"))
      Fixture.loggedIn
    = (inr (respond 200 [] []
              (mkApiResponse 200 (DataDoc shown) "User avatar updated successfully")),
       w')
    /\ shown !! "avatar" = Some (VStr "https://cdn/tmp/n.png")
    /\ shown !! "password" = None /\ shown !! "refreshToken" = None
    /\ storedField w' (VOid 7) "avatar" = Some (VStr "https://cdn/tmp/n.png")
    /\ Forall2 (sameExcept ["avatar"]) (users Fixture.loggedIn) (users w')
    /\ uploads w' = (uploads Fixture.loggedIn ++ [Some "/tmp/n.png"])%list.
Proof.
  apply (updateUserAvatar_stores_url Fixture.collab
           (Fixture.bobSendsFile (Some "/tmp/n.png")) Fixture.loggedIn
           (mkFile (Some "/tmp/n.png")) "/tmp/n.png" (mkAsset "https://cdn/tmp/n.png")
           (selectSafe (Fixture.bob "T1")) (Fixture.bob "T1") (VOid 7));
    try (vm_compute; reflexivity); discriminate.
Defined.

Lemma updateUserAvatar_failures_witness :
  users (snd (updateUserAvatar Fixture.collab (Fixture.bobSendsFile None)
                Fixture.loggedIn))
  = users Fixture.loggedIn.
Proof.
  eapply (updateUserAvatar_failures Fixture.collab (Fixture.bobSendsFile None)
            Fixture.loggedIn).
  vm_compute. reflexivity.
Defined.

Lemma updateUserCoverImage_stores_url_witness :
  exists shown w',
    updateUserCoverImage Fixture.collab (Fixture.bobSendsFile (Some "/tmp/n.png"))
      Fixture.loggedIn
    = (inr (respond 200 [] []
              (mkApiResponse 200 (DataDoc shown) "User cover Image updated successfully")),
       w')
    /\ shown !! "coverImage" = Some (VStr "https://cdn/tmp/n.png")
    /\ shown !! "password" = None /\ shown !! "refreshToken" = None
    /\ storedField w' (VOid 7) "coverImage" = Some (VStr "https://cdn/tmp/n.png")
    /\ Forall2 (sameExcept ["coverImage"]) (users Fixture.loggedIn) (users w')
    /\ uploads w' = (uploads Fixture.loggedIn ++ [Some "/tmp/n.png"])%list.
Proof.
  apply (updateUserCoverImage_stores_url Fixture.collab
           (Fixture.bobSendsFile (Some "/tmp/n.png")) Fixture.loggedIn
           (mkFile (Some "/tmp/n.png")) "/tmp/n.png" (mkAsset "https://cdn/tmp/n.png")
           (selectSafe (Fixture.bob "T1")) (Fixture.bob "T1") (VOid 7));
    try (vm_compute; reflexivity); discriminate.
Defined.

Lemma updateUserCoverImage_failures_witness :
  users (snd (updateUserCoverImage Fixture.collab (Fixture.bobSendsFile None)
                Fixture.loggedIn))
  = users Fixture.loggedIn.
Proof.
  eapply (updateUserCoverImage_failures Fixture.collab (Fixture.bobSendsFile None)
            Fixture.loggedIn).
  vm_compute. reflexivity.
Defined.

(** ** Channel profile: rejections, counts, projection *)

(** X17. The rejections of [getUserChannelProfile]: without a username, or
    with one that is blank after trimming, it is the client error 400; with
    a username that no record stores in lower case it is 404. The world is
    left as it was. *)
Theorem profile_rejections (req : ProfileReq) (w : World) (e : Exn) :
  ProfileRejected w req e ->
  getUserChannelProfile req w = (inl e, w).
Proof.
  intros [Hnone | username Hsome Hblank | username Hsome Hname Hunknown];
    unfold getUserChannelProfile; rewrite ?Hnone, ?Hsome; [reflexivity | |].
  - unfold bind at 1, throwIf, Js.truthy. rewrite Hblank. reflexivity.
  - apply truthy_Some in Hname. unfold bind at 1, throwIf. rewrite Hname.
    cbn [negb]. unfold ret at 1, bind at 1, aggregate, channelPipeline.
    cbn [runPipeline runStage]. rewrite filter_none; [reflexivity |].
    intros u Hu. apply not_true_is_false. rewrite fieldIs_true.
    apply Hunknown. exact Hu.
Qed.

Lemma profile_rejections_witness :
  getUserChannelProfile (mkProfileReq (Some "alice") None) Fixture.loggedIn
  = (inl (ApiError 404 "channel does not exists"), Fixture.loggedIn).
Proof.
  apply profile_rejections.
  apply (ProfileUnknownUsername Fixture.loggedIn _ "alice").
  - reflexivity.
  - vm_compute. discriminate.
  - intros u Hu. apply list_elem_of_singleton in Hu. subst u.
    vm_compute. discriminate.
Defined.

Lemma value_eqb_sym (a b : Value) : value_eqb a b = value_eqb b a.
Proof.
  destruct (value_eqb a b) eqn:Hab.
  - apply value_eqb_eq in Hab as ->. symmetry. apply value_eqb_refl.
  - destruct (value_eqb b a) eqn:Hba; [| reflexivity].
    apply value_eqb_eq in Hba as ->. rewrite value_eqb_refl in Hab. discriminate.
Qed.

(** Looking a key up in an embedded sub-document. *)
Lemma find_map_to_list (d : Doc) (key : string) :
  find (fun kv => String.eqb (fst kv) key) (map_to_list d)
  = (fun v => (key, v)) <$> d !! key.
Proof.
  destruct (find _ (map_to_list d)) as [[k v] |] eqn:Hfind.
  - apply find_some in Hfind as [Hin Hk]. simpl in Hk.
    apply String.eqb_eq in Hk as ->.
    apply list_elem_of_In, elem_of_map_to_list in Hin. rewrite Hin. reflexivity.
  - destruct (d !! key) as [v |] eqn:Hd; [| reflexivity].
    apply elem_of_map_to_list, list_elem_of_In in Hd.
    pose proof (find_none _ _ Hfind _ Hd) as Hk. simpl in Hk.
    rewrite String.eqb_refl in Hk. discriminate.
Qed.

Lemma pluck_embed (key : string) (v : Value) (l : list Doc) :
  existsb (value_eqb v) (pluck key (map embed l)) = existsb (fieldIs key v) l.
Proof.
  unfold pluck. induction l as [| d l IH]; [reflexivity |].
  cbn [map flat_map existsb]. rewrite existsb_app, IH. f_equal.
  unfold embed at 1. rewrite find_map_to_list. unfold fieldIs.
  destruct (d !! key) as [x |]; simpl; [| reflexivity].
  rewrite orb_false_r. apply value_eqb_sym.
Qed.

(** The row the pipeline builds for the one record that answers to the
    username, before the projection. *)
Lemma profile_reply (w : World) (username : string) (viewer : option Doc) (u : Doc) :
  Js.trim username <> "" ->
  u ∈ users w ->
  u !! "username" = Some (VStr (Js.toLowerCase username)) ->
  (forall u', u' ∈ users w -> u' !! "username" = u !! "username" -> u' = u) ->
  getUserChannelProfile (mkProfileReq (Some username) viewer) w
  = (inr (respond 200 [] []
            (mkApiResponse 200
               (DataDoc
                  (filter
                     (fun kv : string * Value =>
                        fst kv ∈ "_id" :: [ "fullName"; "username"; "subscribersCount";
                                             "channelsSubscribedToCount"; "isSubscribed";
                                             "avatar"; "coverImage"; "email" ])
                     (<["isSubscribed" :=
                          VBool (existsb (fieldIs "subscriber"
                                            (default VNull (viewer ≫= (.!! "_id"))))
                                         (edges w u "channel"))]>
                        (<["channelsSubscribedToCount" :=
                             VNum (length (edges w u "subscriber"))]>
                           (<["subscribersCount" := VNum (length (edges w u "channel"))]>
                              (<["subscribedTo" := VArr (map embed (edges w u "subscriber"))]>
                                 (<["subscribers" := VArr (map embed (edges w u "channel"))]>
                                    u)))))))
               "User channel fetched successfully")),
     w).
Proof.
  intros Hname Hin Huser Hunique.
  assert (Hmatch : exists n,
             List.filter (fieldIs "username" (VStr (Js.toLowerCase username))) (users w)
             = replicate (S n) u).
  { apply filter_only; [exact Hin | |].
    - apply fieldIs_true. exact Huser.
    - intros u' Hin' Hp. apply Hunique; [exact Hin' |].
      apply fieldIs_true in Hp. congruence. }
  destruct Hmatch as [n Hmatch].
  unfold getUserChannelProfile. cbn [paramUsername caller].
  unfold bind at 1, throwIf. apply truthy_Some in Hname. rewrite Hname. cbn [negb].
  unfold ret at 1. unfold bind at 1, aggregate, channelPipeline.
  cbn [runPipeline runStage collection String.eqb Ascii.eqb Bool.eqb].
  rewrite Hmatch, !map_replicate. fold (edges w u "channel").
  rewrite (List.filter_ext _ (fun s => joins (u !! "_id") (s !! "subscriber")))
    by (intros s; rewrite lookup_insert_ne by discriminate; reflexivity).
  fold (edges w u "subscriber").
  erewrite mapE_replicate; cycle 1.
  { cbn [addFields evalExpr].
    rewrite lookup_insert_eq.
    rewrite lookup_insert_ne by discriminate. rewrite lookup_insert_eq.
    rewrite pluck_embed, !length_map. reflexivity. }
  rewrite map_replicate. reflexivity.
Qed.

(** X18. For the one record that answers to a non-blank username, the row of
    the reply counts the subscription edges: [subscribersCount] is the number
    of edges that join the record as channel, [channelsSubscribedToCount] the
    number that join it as subscriber, and [isSubscribed] tells whether one of
    the former has the caller's identifier as subscriber ([null] for an
    anonymous caller). *)
Theorem profile_counts_edges
    (w : World) (username : string) (viewer : option Doc) (u : Doc) :
  Js.trim username <> "" ->
  u ∈ users w ->
  u !! "username" = Some (VStr (Js.toLowerCase username)) ->
  (forall u', u' ∈ users w -> u' !! "username" = u !! "username" -> u' = u) ->
  exists row,
    getUserChannelProfile (mkProfileReq (Some username) viewer) w
    = (inr (respond 200 [] []
              (mkApiResponse 200 (DataDoc row) "User channel fetched successfully")),
       w)
    /\ row !! "subscribersCount" = Some (VNum (length (edges w u "channel")))
    /\ row !! "channelsSubscribedToCount" = Some (VNum (length (edges w u "subscriber")))
    /\ row !! "isSubscribed"
       = Some (VBool (existsb (fieldIs "subscriber" (default VNull (viewer ≫= (.!! "_id"))))
                              (edges w u "channel"))).
Proof.
  intros Hname Hin Huser Hunique.
  eexists. split; [apply (profile_reply w username viewer u); assumption |].
  split; [| split]; apply map_lookup_filter_Some; (split; [| set_solver]).
  - rewrite lookup_insert_ne by discriminate.
    rewrite lookup_insert_ne by discriminate. apply lookup_insert_eq.
  - rewrite lookup_insert_ne by discriminate. apply lookup_insert_eq.
  - apply lookup_insert_eq.
Qed.

(** X19. The projection of the profile. The row of the reply shows the
    record's [_id], [fullName], [username], [avatar], [coverImage] and
    [email] as they are stored, and beside the three computed fields nothing
    else: neither the password, nor the refresh token, nor the joined
    subscription documents. *)
Theorem profile_shows_and_hides
    (w : World) (username : string) (viewer : option Doc) (u : Doc) :
  Js.trim username <> "" ->
  u ∈ users w ->
  u !! "username" = Some (VStr (Js.toLowerCase username)) ->
  (forall u', u' ∈ users w -> u' !! "username" = u !! "username" -> u' = u) ->
  exists row,
    getUserChannelProfile (mkProfileReq (Some username) viewer) w
    = (inr (respond 200 [] []
              (mkApiResponse 200 (DataDoc row) "User channel fetched successfully")),
       w)
    /\ (forall key, In key shownInProfile -> row !! key = u !! key)
    /\ (forall key, ~ In key (shownInProfile ++ computedInProfile) -> row !! key = None).
Proof.
  intros Hname Hin Huser Hunique.
  eexists. split; [apply (profile_reply w username viewer u); assumption |]. split.
  - intros key Hkey.
    assert (Hpre : forall m : Doc,
               <["isSubscribed" := VBool (existsb (fieldIs "subscriber"
                                                      (default VNull (viewer ≫= (.!! "_id"))))
                                                   (edges w u "channel"))]>
                 (<["channelsSubscribedToCount" := VNum (length (edges w u "subscriber"))]>
                    (<["subscribersCount" := VNum (length (edges w u "channel"))]>
                       (<["subscribedTo" := VArr (map embed (edges w u "subscriber"))]>
                          (<["subscribers" := VArr (map embed (edges w u "channel"))]> m))))
               !! key = m !! key).
    { intros m. unfold shownInProfile in Hkey. simpl in Hkey.
      repeat (rewrite lookup_insert_ne;
              [| intros <-;
                 repeat (destruct Hkey as [Hkey | Hkey]; [discriminate Hkey |]);
                 exact Hkey]).
      reflexivity. }
    destruct (u !! key) as [x |] eqn:Hu.
    + apply map_lookup_filter_Some. split; [rewrite Hpre; exact Hu |].
      apply list_elem_of_In. unfold shownInProfile in Hkey. simpl in Hkey |- *.
      tauto.
    + apply map_lookup_filter_None. left. rewrite Hpre. exact Hu.
  - intros key Hkey. apply map_lookup_filter_None. right. intros x _ Hp.
    apply Hkey. simpl in Hp. unfold shownInProfile, computedInProfile. simpl.
    apply list_elem_of_In in Hp. simpl in Hp.
    repeat (destruct Hp as [Hp | Hp]; [tauto |]). destruct Hp.
Qed.

Lemma profile_counts_edges_witness :
  exists row,
    getUserChannelProfile (mkProfileReq (Some "Bob") (Some {[ "_id" := VOid 9 ]}))
      Fixture.followed
    = (inr (respond 200 [] []
              (mkApiResponse 200 (DataDoc row) "User channel fetched successfully")),
       Fixture.followed)
    /\ row !! "subscribersCount" = Some (VNum 2)
    /\ row !! "channelsSubscribedToCount" = Some (VNum 1)
    /\ row !! "isSubscribed" = Some (VBool true).
Proof.
  destruct (profile_counts_edges Fixture.followed "Bob" (Some {[ "_id" := VOid 9 ]})
              (Fixture.bob "T1")) as (row & Hreply & Hsubs & Hchannels & Hsubscribed).
  - vm_compute. discriminate.
  - apply list_elem_of_here.
  - vm_compute. reflexivity.
  - intros u' Hu' _. apply list_elem_of_singleton in Hu'. exact Hu'.
  - exists row. split; [exact Hreply |].
    split; [exact Hsubs |]. split; [exact Hchannels | exact Hsubscribed].
Defined.

Lemma profile_shows_and_hides_witness :
  exists row,
    getUserChannelProfile (mkProfileReq (Some "Bob") None) Fixture.followed
    = (inr (respond 200 [] []
              (mkApiResponse 200 (DataDoc row) "User channel fetched successfully")),
       Fixture.followed)
    /\ (forall key, In key shownInProfile -> row !! key = Fixture.bob "T1" !! key)
    /\ (forall key, ~ In key (shownInProfile ++ computedInProfile) -> row !! key = None).
Proof.
  apply (profile_shows_and_hides Fixture.followed "Bob" None (Fixture.bob "T1")).
  - vm_compute. discriminate.
  - apply list_elem_of_here.
  - vm_compute. reflexivity.
  - intros u' Hu' _. apply list_elem_of_singleton in Hu'. exact Hu'.
Defined.

(** ** Registration: what an answer means, what a failure leaves *)

Lemma check_noBlankField (req : RegisterReq) :
  existsb Js.trimsToEmpty
    [reg_fullname req; reg_username req; reg_email req; reg_password req] = false ->
  noBlankField req.
Proof.
  intros Hcheck s Hin Hblank.
  assert (Hex : existsb Js.trimsToEmpty
            [reg_fullname req; reg_username req; reg_email req; reg_password req] = true).
  { apply existsb_exists. exists (Some s). split; [exact Hin |].
    simpl. rewrite Hblank. reflexivity. }
  congruence.
Qed.

Section RegistrationAnswers.

Variable C : Collab.

(** X20. What it means that [registerUser] has answered. The body passed the
    blank check and no record answered to the username or the email; the
    request carried an avatar file with a path, whose upload worked; exactly
    two uploads were made, the avatar first; exactly one record was appended
    to the users, with an identifier no record had; and the reply is 201 and
    shows that record without its password and refresh token. *)
Theorem registration_answer (req : RegisterReq) (w w' : World) (reply : Reply) :
  registerUser C req w = (inr reply, w') ->
  exists d avatarPath coverPath asset,
    noBlankField req
    /\ await C (FindOne [("username", reg_username req); ("email", reg_email req)]) w
       = (inr None, w)
    /\ firstPath (reg_files req) avatar = inr (Some avatarPath)
    /\ avatarPath <> ""
    /\ firstPath (reg_files req) coverImage = inr coverPath
    /\ uploadAssetsOnCloudinary C (Some avatarPath) = Some asset
    /\ uploads w' = (uploads w ++ [Some avatarPath; coverPath])%list
    /\ users w' = (users w ++ [d])%list
    /\ (forall u, u ∈ users w -> u !! "_id" <> d !! "_id")
    /\ reply = respond 201 [] []
                 (mkApiResponse 200 (DataDoc (selectSafe d)) "User created successfully")
    /\ selectSafe d !! "password" = None /\ selectSafe d !! "refreshToken" = None.
Proof.
  unfold registerUser. intros H.
  apply bind_inr in H as (? & w1 & H1 & H). apply throwIf_inr in H1 as [Hblank ->].
  apply bind_inr in H as (existing & w1 & Hexisting & H).
  assert (w1 = w) as -> by (unfold await in Hexisting; congruence).
  apply bind_inr in H as (? & w1 & H1 & H). apply throwIf_inr in H1 as [Hfree ->].
  destruct existing; [discriminate Hfree |].
  apply bind_inr in H as (avatarPath & w1 & H1 & H). apply liftE_inr in H1 as [Havatar ->].
  apply bind_inr in H as (coverPath & w1 & H1 & H). apply liftE_inr in H1 as [Hcover ->].
  apply bind_inr in H as (? & w1 & H1 & H). apply throwIf_inr in H1 as [Htruthy ->].
  apply negb_false_iff in Htruthy.
  destruct avatarPath as [avatarPath |]; [| discriminate Htruthy].
  apply truthy_Some in Htruthy.
  apply bind_inr in H as (av & w1 & H1 & H). unfold upload in H1.
  injection H1 as Hav <-.
  apply bind_inr in H as (cov & w1 & H1 & H). unfold upload in H1.
  injection H1 as _ <-.
  apply bind_inr in H as (? & w1 & H1 & H). apply throwIf_inr in H1 as [Hup ->].
  destruct av as [asset |]; [| discriminate Hup].
  apply bind_inr in H as (userName & w1 & H1 & H). apply liftE_inr in H1 as [_ ->].
  apply bind_inr in H as (lowEmail & w1 & H1 & H). apply liftE_inr in H1 as [_ ->].
  apply bind_inr in H as (d & w1 & H1 & H).
  apply (create_inr C) in H1 as (-> & Hid & _).
  apply bind_inr in H as (created & w1 & H1 & H). unfold await in H1.
  cbn [users setUsers logUpload] in H1, Hid. rewrite (find_created _ _ Hid) in H1.
  injection H1 as <- <-. cbn [fmap option_fmap option_map] in H.
  injection H as <- <-.
  exists d, avatarPath, coverPath, asset.
  split; [apply check_noBlankField; exact Hblank |].
  split; [exact Hexisting |]. split; [exact Havatar |]. split; [exact Htruthy |].
  split; [exact Hcover |]. split; [exact Hav |].
  split; [cbn [uploads setUsers logUpload]; rewrite <- app_assoc; reflexivity |].
  split; [reflexivity |]. split; [| split; [reflexivity | apply selectSafe_hides]].
  intros u Hu Hsame. rewrite Hid in Hsame.
  pose proof (freshId_above (users w) u Hu) as Hlt.
  unfold oidOf in Hlt. rewrite Hsame in Hlt. lia.
Qed.

(** The failures of [registerUser] when the store answers. *)
Lemma registerUser_inl (req : RegisterReq) (w w' : World) (e : Exn) :
  registerUser C req w = (inl e, w') ->
  users w' = users w /\ pending w' = pending w
  /\ ((w' = w
       /\ In e [ ApiError 400 "All fields are required";
                 ApiError 409 "User with email or username already exists";
                 TypeError "Cannot read properties of undefined (reading '0')";
                 ApiError 400 "Avatar file is required" ])
      \/ (exists avatarPath coverPath,
             w' = logUpload coverPath (logUpload (Some avatarPath) w)
             /\ In e [ ApiError 400 "Error uploading avatar file to cloudinary";
                       TypeError "Cannot read properties of undefined (reading 'toLowerCase')" ])).
Proof.
  unfold registerUser. intros H.
  apply bind_inl in H as [H | (? & w1 & H1 & H)].
  { unfold throwIf in H. destruct (existsb _ _); [| discriminate H].
    injection H as <- <-. repeat split. left. split; [reflexivity |]. simpl. auto. }
  apply throwIf_inr in H1 as [_ ->].
  apply bind_inl in H as [H | (existing & w1 & H1 & H)]; [discriminate H |].
  assert (w1 = w) as -> by (unfold await in H1; congruence). clear H1.
  apply bind_inl in H as [H | (? & w1 & H1 & H)].
  { unfold throwIf in H. destruct (isSome existing); [| discriminate H].
    injection H as <- <-. repeat split. left. split; [reflexivity |]. simpl. auto. }
  apply throwIf_inr in H1 as [_ ->].
  apply bind_inl in H as [H | (avatarPath & w1 & H1 & H)].
  { unfold liftE, firstPath in H.
    destruct (reg_files req) as [fs |]; [| discriminate H].
    destruct (avatar fs) as [[| f l] |]; try discriminate H.
    injection H as <- <-. repeat split. left. split; [reflexivity |]. simpl. auto. }
  apply liftE_inr in H1 as [_ ->].
  apply bind_inl in H as [H | (coverPath & w1 & H1 & H)].
  { unfold liftE, firstPath in H.
    destruct (reg_files req) as [fs |]; [| discriminate H].
    destruct (coverImage fs) as [[| f l] |]; try discriminate H.
    injection H as <- <-. repeat split. left. split; [reflexivity |]. simpl. auto. }
  apply liftE_inr in H1 as [_ ->].
  apply bind_inl in H as [H | (? & w1 & H1 & H)].
  { unfold throwIf in H. destruct (negb (Js.truthy avatarPath)); [| discriminate H].
    injection H as <- <-. repeat split. left. split; [reflexivity |]. simpl. auto. }
  apply throwIf_inr in H1 as [Htruthy ->]. apply negb_false_iff in Htruthy.
  destruct avatarPath as [avatarPath |]; [| discriminate Htruthy].
  apply bind_inl in H as [H | (av & w1 & H1 & H)]; [discriminate H |].
  unfold upload in H1. injection H1 as _ <-.
  apply bind_inl in H as [H | (cov & w1 & H1 & H)]; [discriminate H |].
  unfold upload in H1. injection H1 as _ <-.
  apply bind_inl in H as [H | (? & w1 & H1 & H)].
  { unfold throwIf in H. destruct (negb (isSome av)); [| discriminate H].
    injection H as <- <-. repeat split. right. exists avatarPath, coverPath.
    split; [reflexivity |]. simpl. auto. }
  apply throwIf_inr in H1 as [_ ->].
  apply bind_inl in H as [H | (userName & w1 & H1 & H)].
  { unfold liftE, toLowerCaseOf in H. destruct (reg_username req); [discriminate H |].
    injection H as <- <-. repeat split. right. exists avatarPath, coverPath.
    split; [reflexivity |]. simpl. auto. }
  apply liftE_inr in H1 as [_ ->].
  apply bind_inl in H as [H | (lowEmail & w1 & H1 & H)].
  { unfold liftE, toLowerCaseOf in H. destruct (reg_email req); [discriminate H |].
    injection H as <- <-. repeat split. right. exists avatarPath, coverPath.
    split; [reflexivity |]. simpl. auto. }
  apply liftE_inr in H1 as [_ ->].
  apply bind_inl in H as [H | (d & w1 & H1 & H)]; [discriminate H |].
  apply (create_inr C) in H1 as (-> & Hid & _).
  apply bind_inl in H as [H | (created & w1 & H1 & H)]; [discriminate H |].
  unfold await in H1. cbn [users setUsers logUpload] in H1, Hid.
  rewrite (find_created _ _ Hid) in H1. injection H1 as <- <-. discriminate H.
Qed.

(** X21. A failure of [registerUser] leaves the users as they were, and
    either no upload was made or exactly the two, avatar first. The errors
    of the checks that come first (400 for a blank field, 409 for a taken
    username or email, the [TypeError] for files without an [avatar] or a
    [coverImage] key, 400 for a missing avatar path) are raised before any
    upload. The 400 for an avatar whose upload gave nothing and the
    [TypeError] for an absent username or email are raised when both uploads
    have been made. *)
Theorem registration_failures (req : RegisterReq) (w w' : World) (e : Exn) :
  registerUser C req w = (inl e, w') ->
  users w' = users w /\ pending w' = pending w
  /\ (w' = w
      \/ exists avatarPath coverPath,
           w' = logUpload coverPath (logUpload (Some avatarPath) w))
  /\ (In e [ ApiError 400 "All fields are required";
             ApiError 409 "User with email or username already exists";
             TypeError "Cannot read properties of undefined (reading '0')";
             ApiError 400 "Avatar file is required" ] ->
      w' = w)
  /\ (In e [ ApiError 400 "Error uploading avatar file to cloudinary";
             TypeError "Cannot read properties of undefined (reading 'toLowerCase')" ] ->
      exists avatarPath coverPath,
        w' = logUpload coverPath (logUpload (Some avatarPath) w)).
Proof.
  intros Hfail.
  destruct (registerUser_inl req w w' e Hfail)
    as (Husers & Hpending & [(Hw & He) | (avatarPath & coverPath & Hw & He)]);
    (split; [exact Husers |]); (split; [exact Hpending |]).
  - split; [left; exact Hw |]. split; [intros _; exact Hw |].
    intros He'. exfalso. simpl in He, He'.
    repeat (destruct He as [<- | He]; [intuition discriminate |]). exact He.
  - split; [right; eauto |]. split; [| intros _; eauto].
    intros He'. exfalso. simpl in He, He'.
    repeat (destruct He as [<- | He]; [intuition discriminate |]). exact He.
Qed.

End RegistrationAnswers.

Lemma registration_answer_witness :
  exists d avatarPath coverPath asset,
    noBlankField (Fixture.registerAnn Fixture.twoFiles)
    /\ await Fixture.collab (FindOne [("username", Some "Ann"); ("email", Some "Ann@x.io")])
         Fixture.loggedIn
       = (inr None, Fixture.loggedIn)
    /\ firstPath Fixture.twoFiles avatar = inr (Some avatarPath)
    /\ avatarPath <> ""
    /\ firstPath Fixture.twoFiles coverImage = inr coverPath
    /\ uploadAssetsOnCloudinary Fixture.collab (Some avatarPath) = Some asset
    /\ uploads (snd (registerUser Fixture.collab (Fixture.registerAnn Fixture.twoFiles)
                       Fixture.loggedIn))
       = (uploads Fixture.loggedIn ++ [Some avatarPath; coverPath])%list
    /\ users (snd (registerUser Fixture.collab (Fixture.registerAnn Fixture.twoFiles)
                     Fixture.loggedIn))
       = (users Fixture.loggedIn ++ [d])%list
    /\ (forall u, u ∈ users Fixture.loggedIn -> u !! "_id" <> d !! "_id")
    /\ fst (registerUser Fixture.collab (Fixture.registerAnn Fixture.twoFiles)
              Fixture.loggedIn)
       = inr (respond 201 [] []
                (mkApiResponse 200 (DataDoc (selectSafe d)) "User created successfully"))
    /\ selectSafe d !! "password" = None /\ selectSafe d !! "refreshToken" = None.
Proof.
  destruct (registration_answer Fixture.collab (Fixture.registerAnn Fixture.twoFiles)
              Fixture.loggedIn
              (snd (registerUser Fixture.collab (Fixture.registerAnn Fixture.twoFiles)
                      Fixture.loggedIn))
              (match fst (registerUser Fixture.collab (Fixture.registerAnn Fixture.twoFiles)
                            Fixture.loggedIn) with
               | inr reply => reply
               | inl _ => NoReply
               end))
    as (d & avatarPath & coverPath & asset & H).
  - vm_compute. reflexivity.
  - exists d, avatarPath, coverPath, asset.
    destruct H as (H1 & H2 & H3 & H4 & H5 & H6 & H7 & H8 & H9 & H10 & H11).
    repeat (split; [assumption |]). split; [| exact H11].
    rewrite <- H10. vm_compute. reflexivity.
Defined.

Lemma registration_failures_witness :
  users (snd (registerUser Fixture.collab Fixture.registerNoUsername Fixture.empty))
  = users Fixture.empty.
Proof.
  eapply (registration_failures Fixture.collab Fixture.registerNoUsername Fixture.empty).
  vm_compute. reflexivity.
Defined.

(** ** The two revisions of login *)

Section LoginRevisions.

Variable C : Collab.


End LoginRevisions.
